(** * url-monitor: the alert tracker, the probe, resource discovery and the scheduler

    A shallow embedding of [backend/models.py], [backend/alert_manager.py],
    [backend/network_monitor.py] and the request handlers of [backend/app.py],
    followed by the properties of the specification that were checked on it.

    Conventions.
    - Python [int] columns are [Z]; a [DateTime] value is the number of
      microseconds since the epoch ([datetime] has microsecond resolution), so
      [timedelta(minutes=m)] is [m * 60000000].
    - A nullable column is an [option].
    - Everything the code obtains from outside (the clock, the webhook, the
      probed server, DNS, tcpdump, the HTML parser) is an input of the model:
      an environment record says what the outside world answered.
    - The SQLAlchemy session is built in [database.py] with
      [autoflush=False]: a query only sees rows that were committed.
      Adding to the session and committing it succeed.
    - The background threads that [check_url] starts are recorded, not
      interleaved: a discovery pass is a function on the session. *)

From stdpp Require Import gmap strings list.
From Stdlib Require Import ZArith NArith Ascii.

(** ** models.py *)

Module Models.

(** The columns the code under study reads or assigns. The two
    timestamps [created_at] and [updated_at], which the ORM fills in by
    itself ([updated_at] on every update of the row), are left out. *)

Record URL := mkURL {
  id : Z;
  url : string;
  name : string;
  is_active : bool;
  check_frequency : Z;
  is_one_time : bool;
  alert_enabled : bool;
  consecutive_failures : Z;
  last_alerted_at : option Z;
  alert_recovery : bool
}.

(** Attribute assignments [url.consecutive_failures = n],
    [url.last_alerted_at = t], [url.is_active = b], ... *)
Definition set_consecutive_failures (n : Z) (u : URL) : URL :=
  mkURL (id u) (url u) (name u) (is_active u) (check_frequency u)
        (is_one_time u) (alert_enabled u) n (last_alerted_at u)
        (alert_recovery u).

Definition set_last_alerted_at (t : option Z) (u : URL) : URL :=
  mkURL (id u) (url u) (name u) (is_active u) (check_frequency u)
        (is_one_time u) (alert_enabled u) (consecutive_failures u) t
        (alert_recovery u).

Definition set_is_active (b : bool) (u : URL) : URL :=
  mkURL (id u) (url u) (name u) b (check_frequency u)
        (is_one_time u) (alert_enabled u) (consecutive_failures u)
        (last_alerted_at u) (alert_recovery u).

Definition set_check_frequency (f : Z) (u : URL) : URL :=
  mkURL (id u) (url u) (name u) (is_active u) f
        (is_one_time u) (alert_enabled u) (consecutive_failures u)
        (last_alerted_at u) (alert_recovery u).

Definition set_name (n : string) (u : URL) : URL :=
  mkURL (id u) (url u) n (is_active u) (check_frequency u)
        (is_one_time u) (alert_enabled u) (consecutive_failures u)
        (last_alerted_at u) (alert_recovery u).

(** [response_time] is a difference of two [time.time()] readings, kept
    in the clock's unit; the [timestamp] columns are filled by the
    database and play no part below. *)
Record URLStatus := mkURLStatus {
  url_id : Z;
  status_code : Z;
  response_time : Z;
  is_up : bool;
  error_message : option string
}.

Record SubsequentRequest := mkSubsequentRequest {
  parent_id : Z;          (* column url_id *)
  target_url : string;
  ip_address : string;
  resource_type : string;
  state_type : string;
  protocol : string
}.

End Models.

Import Models.

(** ** alert_manager.py *)

Module AlertManager.

Local Open Scope Z_scope.

(** [AlertManager.__init__]: the three settings read from the process
    environment. *)
Record t := mk {
  slack_webhook_url : string;
  failure_threshold : Z;
  cooldown_minutes : Z
}.

Inductive alert_kind := Failure | Recovery.

Inductive log_line :=
| NoWebhookConfigured     (* "No Slack webhook URL configured. Skipping alert." *)
| AlertSent               (* "Alert sent for ..." *)
| ErrorSendingAlert       (* "Error sending alert: ..." *)
| RecoverySent            (* "Recovery alert sent for ..." *)
| ErrorSendingRecovery.   (* "Error sending recovery alert: ..." *)

(** What one call does that is visible from outside, in order.
    [Call k i]: [send_failure_alert] / [send_recovery_alert] was entered
    for target [i]; [Post k i ok]: the message went to the webhook with
    [requests.post], and [ok] says whether the request and
    [raise_for_status()] went through; [Stdout l]: a printed line. *)
Inductive event :=
| Call (k : alert_kind) (i : Z)
| Post (k : alert_kind) (i : Z) (ok : bool)
| Stdout (l : log_line).

(** The outside world during one call of [process_status_for_alerts]:
    [datetime.now()] as read by the cooldown test (line 51), the fate of
    [requests.post] + [raise_for_status], and [datetime.now()] as read
    when [last_alerted_at] is stamped (line 112). *)
Record Env := mkEnv {
  now_check : Z;
  post_ok : bool;
  now_stamp : Z
}.

(** [timedelta(minutes=self.cooldown_minutes)] *)
Definition cooldown (self : t) : Z := cooldown_minutes self * 60000000.

(** [not self.slack_webhook_url] *)
Definition webhook_unset (self : t) : bool :=
  match slack_webhook_url self with
  | EmptyString => true
  | _ => false
  end.

(** [url.last_alerted_at and datetime.now() - url.last_alerted_at < timedelta(...)] *)
Definition in_cooldown (self : t) (env : Env) (u : URL) : bool :=
  match last_alerted_at u with
  | None => false
  | Some last => now_check env - last <? cooldown self
  end.

(** [send_failure_alert]: the row as the call leaves it, the returned
    boolean, and the events after entry. *)
Definition send_failure_alert (self : t) (env : Env) (u : URL)
    (status : URLStatus) : URL * bool * list event :=
  if webhook_unset self then (u, false, [Stdout NoWebhookConfigured])
  else if in_cooldown self env u then (u, false, [])
  else if post_ok env then
    (set_last_alerted_at (Some (now_stamp env)) u, true,
     [Post Failure (id u) true; Stdout AlertSent])
  else (u, false, [Post Failure (id u) false; Stdout ErrorSendingAlert]).

Definition send_recovery_alert (self : t) (env : Env) (u : URL)
    : bool * list event :=
  if webhook_unset self then (false, [])
  else if post_ok env then
    (true, [Post Recovery (id u) true; Stdout RecoverySent])
  else (false, [Post Recovery (id u) false; Stdout ErrorSendingRecovery]).

(** [process_status_for_alerts]: the table of URL rows after the final
    commit, and the events of the call. *)
Definition process_status_for_alerts (self : t) (env : Env)
    (db : gmap Z URL) (url_id : Z) (status : URLStatus)
    : gmap Z URL * list event :=
  match db !! url_id with
  | None => (db, [])
  | Some u =>
      if negb (alert_enabled u) || is_one_time u then (db, [])
      else if is_up status then
        let tr :=
          if (failure_threshold self <=? consecutive_failures u)
             && alert_recovery u
          then Call Recovery (id u) :: (send_recovery_alert self env u).2
          else [] in
        (<[url_id := set_consecutive_failures 0 u]> db, tr)
      else
        let u1 := set_consecutive_failures (consecutive_failures u + 1) u in
        if consecutive_failures u1 =? failure_threshold self then
          let '(u2, _, tr) := send_failure_alert self env u1 status in
          (<[url_id := u2]> db, Call Failure (id u1) :: tr)
        else (<[url_id := u1]> db, [])
  end.

(** The alerting state is not stored: a target is alerting when its
    streak has reached the threshold (the test of line 29). *)
Definition alerting (self : t) (u : URL) : bool :=
  failure_threshold self <=? consecutive_failures u.

(** Successive checks of one target: each outcome is processed in the
    world that held at that moment. *)
Fixpoint run (self : t) (db : gmap Z URL) (url_id : Z)
    (checks : list (URLStatus * Env)) : gmap Z URL * list event :=
  match checks with
  | [] => (db, [])
  | (status, env) :: rest =>
      let '(db1, tr1) := process_status_for_alerts self env db url_id status in
      let '(db2, tr2) := run self db1 url_id rest in
      (db2, tr1 ++ tr2)
  end.

Definition is_call (k : alert_kind) (e : event) : bool :=
  match e, k with
  | Call Failure _, Failure | Call Recovery _, Recovery => true
  | _, _ => false
  end.

Definition is_post (k : alert_kind) (e : event) : bool :=
  match e, k with
  | Post Failure _ _, Failure | Post Recovery _ _, Recovery => true
  | _, _ => false
  end.

Definition is_delivered (k : alert_kind) (e : event) : bool :=
  match e, k with
  | Post Failure _ true, Failure | Post Recovery _ true, Recovery => true
  | _, _ => false
  end.

Fixpoint count (p : event -> bool) (tr : list event) : nat :=
  match tr with
  | [] => 0%nat
  | e :: rest => ((if p e then 1 else 0) + count p rest)%nat
  end.

(** A target that [process_status_for_alerts] tracks (the guard of line
    24): its row exists, its alerts are enabled and it is not a one-time
    check. *)
Definition tracked (db : gmap Z URL) (i : Z) (u : URL) : Prop :=
  db !! i = Some u /\ alert_enabled u = true /\ is_one_time u = false.

(** A down-streak: contiguous outcomes that are all down. *)
Definition all_down (checks : list (URLStatus * Env)) : Prop :=
  Forall (fun c => is_up c.1 = false) checks.

(** The counter goes from threshold-1 to threshold on a down outcome. *)
Definition crossing (self : t) (u : URL) (status : URLStatus) : Prop :=
  is_up status = false
  /\ consecutive_failures u = failure_threshold self - 1.

(** The target is not alerting now, nor after any prefix of [checks]. *)
Fixpoint never_alerting (self : t) (db : gmap Z URL) (i : Z)
    (checks : list (URLStatus * Env)) : Prop :=
  (forall u, tracked db i u -> alerting self u = false)
  /\ match checks with
     | [] => True
     | (status, env) :: rest =>
         never_alerting self
           (process_status_for_alerts self env db i status).1 i rest
     end.

End AlertManager.

(** ** Python string operations used by network_monitor.py

    Strings are byte strings; [lower] is Python's [str.lower] on ASCII
    text (header values and URLs). *)

Module PyStr.

(** [s.startswith(p)] *)
Definition startswith (s p : string) : bool := String.prefix p s.

(** [s.endswith(suffix)] *)
Fixpoint endswith (s suffix : string) : bool :=
  if String.eqb s suffix then true
  else match s with
       | EmptyString => false
       | String _ rest => endswith rest suffix
       end.

(** [needle in s] *)
Fixpoint contains (needle s : string) : bool :=
  if String.prefix needle s then true
  else match s with
       | EmptyString => false
       | String _ rest => contains needle rest
       end.

Definition lower_ascii (c : ascii) : ascii :=
  let n := N_of_ascii c in
  if (65 <=? n)%N && (n <=? 90)%N then ascii_of_N (n + 32) else c.

(** [s.lower()] *)
Fixpoint lower (s : string) : string :=
  match s with
  | EmptyString => EmptyString
  | String c rest => String (lower_ascii c) (lower rest)
  end.

(** [s.endswith((a, b, ...))] with a tuple of suffixes *)
Definition endswith_any (s : string) (suffixes : list string) : bool :=
  existsb (endswith s) suffixes.

(** Truth value of a string: non-empty. *)
Definition truthy (s : string) : bool :=
  match s with EmptyString => false | _ => true end.

End PyStr.

(** ** network_monitor.py *)

Module NetworkMonitor.

Local Open Scope Z_scope.

(** *** The monitor and its session *)

(** A job of the APScheduler interval trigger: [seconds] and [args]. *)
Record job := mkJob {
  seconds : Z;
  args : Z * string
}.

Inductive thread :=
| CaptureThread (url_id : Z) (url : string)      (* target=self.capture_subsequent_requests *)
| FallbackThread (url_id : Z) (url : string).    (* target=self.fallback_capture_method *)

(** [self.db]: the committed rows of the two tables the monitor writes,
    and the objects added to the session since the last commit.
    [self.scheduler]: the job store, keyed by job id, with the next fresh
    id. [self.jobs]: the dict from target id to its job. [threads]: the
    background threads started so far. *)
Record t := mk {
  url_statuses : list URLStatus;
  subsequent_requests : list SubsequentRequest;
  pending : list SubsequentRequest;
  scheduler : gmap nat job;
  next_job : nat;
  jobs : gmap Z nat;
  threads : list thread
}.

Definition set_session (rows pend : list SubsequentRequest) (m : t) : t :=
  mk (url_statuses m) rows pend (scheduler m) (next_job m) (jobs m)
     (threads m).

(** [self.db.add(req)] *)
Definition db_add (req : SubsequentRequest) (m : t) : t :=
  set_session (subsequent_requests m) (pending m ++ [req]) m.

(** [self.db.commit()]: the pending objects become rows. *)
Definition db_commit (m : t) : t :=
  set_session (subsequent_requests m ++ pending m) [] m.

(** [self.db.add(status); self.db.commit()] *)
Definition db_add_status (status : URLStatus) (m : t) : t :=
  db_commit (mk (url_statuses m ++ [status]) (subsequent_requests m)
                (pending m) (scheduler m) (next_job m) (jobs m) (threads m)).

Definition start_thread (th : thread) (m : t) : t :=
  mk (url_statuses m) (subsequent_requests m) (pending m) (scheduler m)
     (next_job m) (jobs m) (threads m ++ [th]).

(** [_url_exists_for_monitor]: a query on the committed rows (the
    session does not autoflush). *)
Definition _url_exists_for_monitor (m : t) (url_id : Z)
    (target_url : string) : bool :=
  existsb (fun r => (parent_id r =? url_id)
                    && String.eqb (Models.target_url r) target_url)
          (subsequent_requests m).

(** *** check_url *)

(** An exception, as far as the code looks at it: [str(e)]. *)
Definition exn := string.

(** What the world answers during one probe: whether starting the
    capture thread raises, whether starting the fallback thread then
    raises, and [requests.get(url, timeout=10)]: a response with its
    status code and the time it took, or an exception. *)
Record ProbeEnv := mkProbeEnv {
  capture_thread_raises : option exn;
  fallback_thread_raises : option exn;
  get : exn + (Z * Z)
}.

Definition check_url (env : ProbeEnv) (m : t) (url_id : Z) (url : string)
    : t * URLStatus :=
  let failed (m : t) (e : exn) :=
    (m, mkURLStatus url_id 0 0 false (Some e)) in
  let request (m : t) :=
    match get env with
    | inr (code, elapsed) =>
        (m, mkURLStatus url_id code elapsed (code <? 400) None)
    | inl e => failed m e
    end in
  let '(m1, status) :=
    match capture_thread_raises env with
    | None => request (start_thread (CaptureThread url_id url) m)
    | Some _ =>
        match fallback_thread_raises env with
        | None => request (start_thread (FallbackThread url_id url) m)
        | Some e => failed m e
        end
    end in
  (db_add_status status m1, status).

(** The probe gets as far as [requests.get]: one of the two threads
    could be started. *)
Definition get_made (env : ProbeEnv) : Prop :=
  capture_thread_raises env = None \/ fallback_thread_raises env = None.

(** *** _guess_resource_type *)

Definition _guess_resource_type (url content_type : string) : string :=
  let url_lower := PyStr.lower url in
  let by_extension :=
    if PyStr.endswith_any url_lower [".jpg"; ".jpeg"; ".png"; ".gif"; ".webp"]
    then "Image"
    else if PyStr.endswith url_lower ".css" then "Stylesheet"
    else if PyStr.endswith url_lower ".js" then "JavaScript"
    else if PyStr.endswith_any url_lower [".html"; ".htm"] then "HTML"
    else "Other" in
  if PyStr.truthy content_type then
    if PyStr.contains "javascript" content_type then "JavaScript"
    else if PyStr.contains "css" content_type then "Stylesheet"
    else if PyStr.contains "image/" content_type then "Image"
    else if PyStr.contains "html" content_type then "HTML"
    else by_extension
  else by_extension.

(** *** Resource discovery *)

(** A found resource: the dict with keys [url], [resource_type],
    [state_type] and [protocol] (fallback), plus [ip] (capture). *)
Record resource := mkResource {
  res_url : string;
  res_ip : string;
  res_type : string;
  res_state : string;
  res_protocol : string
}.

(** [session.get(url, timeout=10)] followed by the HTML parser: the
    Content-Type header and the references found, each already resolved
    with [urljoin(base_url, ...)], in document order: [<script src>],
    [<link rel=stylesheet>] with an href, [<img src>]. *)
Inductive fetch :=
| Fetched (content_type : string) (scripts stylesheets images : list string)
| RequestException
| OtherException.

(** The capture, from the tcpdump test to [parse_capture_file]. *)
Inductive capture :=
| TcpdumpMissing       (* [which tcpdump] fails or raises *)
| NoOutputFile         (* the pcap file is missing or empty *)
| NothingParsed        (* [parse_capture_file] returned no request *)
| Parsed (reqs : list resource)
| CaptureRaises        (* an exception during the capture (line 419) *)
| SetupRaises.         (* an exception before it (line 430) *)

Record DiscoveryEnv := mkDiscoveryEnv {
  bs4_installed : bool;
  scheme : string -> string;                   (* urlparse(url).scheme *)
  netloc : string -> string;                   (* urlparse(url).netloc *)
  gethostbyname : string -> option string;     (* None: it raises *)
  fetched : string -> fetch;
  captured : capture;
  (** the [print] of an exception handler of [fallback_capture_method]
      itself raises (a closed or non-UTF-8 stdout) *)
  handler_print_raises : bool
}.

Definition placeholder (url_id : Z) (url ip : string) : SubsequentRequest :=
  mkSubsequentRequest url_id url ip "Unknown" "Unknown" "Unknown".

(** [if not self._url_exists_for_monitor(url_id, url): add; commit] *)
Definition add_if_new (req : SubsequentRequest) (m : t) : t :=
  if _url_exists_for_monitor m (parent_id req) (target_url req) then m
  else db_commit (db_add req m).

(** The loop of lines 185-212 (and 394-410): every resource whose URL is
    not found by the query is added; the count of additions comes back
    with the session. *)
Fixpoint save_resources (ip_of : resource -> string) (url_id : Z)
    (resources : list resource) (m : t) (added : nat) : t * nat :=
  match resources with
  | [] => (m, added)
  | r :: rest =>
      if _url_exists_for_monitor m url_id (res_url r)
      then save_resources ip_of url_id rest m added
      else
        save_resources ip_of url_id rest
          (db_add (mkSubsequentRequest url_id (res_url r) (ip_of r)
                     (res_type r) (res_state r) (res_protocol r)) m)
          (S added)
  end.

(** [if new_resources_count > 0: self.db.commit()] *)
Definition save_and_commit (ip_of : resource -> string) (url_id : Z)
    (resources : list resource) (m : t) : t :=
  let '(m1, added) := save_resources ip_of url_id resources m 0 in
  if (0 <? added)%nat then db_commit m1 else m1.

(** Lines 192-197: the IP of a resource found by the fallback. *)
Definition resolve (env : DiscoveryEnv) (r : resource) : string :=
  let host := netloc env (res_url r) in
  if PyStr.truthy host then
    match gethostbyname env host with
    | Some ip => ip
    | None => "Unknown"
    end
  else "Unknown".

Definition found (type : string) (url : string) : resource :=
  mkResource url EmptyString type "Stateless" "TCP".

(** Lines 91-93 *)
Definition with_scheme (url : string) : string :=
  if PyStr.truthy url
     && negb (PyStr.startswith url "http://" || PyStr.startswith url "https://")
  then "http://" +:+ url
  else url.

(** [fallback_capture_method]: the monitor afterwards, and whether an
    exception left the method. *)
Definition fallback_capture_method (env : DiscoveryEnv) (m : t)
    (url_id : Z) (url : string) : t * bool :=
  let handler (url ip : string) :=
    if handler_print_raises env then (m, true)
    else (add_if_new (placeholder url_id url ip) m, false) in
  if negb (bs4_installed env) then handler url "Dependencies Missing"
  else
    let url := with_scheme url in
    if negb (PyStr.truthy (netloc env url))
    then (add_if_new (placeholder url_id url "Invalid URL") m, false)
    else
      match fetched env url with
      | Fetched header scripts stylesheets images =>
          let content_type := PyStr.lower header in
          if PyStr.contains "text/html" content_type then
            let resources :=
              map (found "JavaScript") scripts
              ++ map (found "Stylesheet") stylesheets
              ++ map (found "Image") images in
            let resources :=
              match resources with
              | [] => [mkResource url EmptyString "HTML" "Stateful" "TCP"]
              | _ => resources
              end in
            (save_and_commit (resolve env) url_id resources m, false)
          else
            (add_if_new
               (mkSubsequentRequest url_id url "Unknown"
                  (_guess_resource_type url content_type) "Unknown" "TCP")
               m, false)
      | RequestException =>
          (add_if_new (placeholder url_id url "Request Failed") m, false)
      | OtherException => handler url "Error"
      end.

(** [capture_subsequent_requests] *)
Definition capture_subsequent_requests (env : DiscoveryEnv) (m : t)
    (url_id : Z) (url : string) : t :=
  (* lines 430-451: the handler of the outer [try] *)
  let outer_handler (m : t) :=
    let '(m1, raised) := fallback_capture_method env m url_id url in
    if raised
    then db_commit (db_add (placeholder url_id url "Could not determine") m1)
    else m1 in
  (* a call of the fallback inside the outer [try] *)
  let fallback (m : t) :=
    let '(m1, raised) := fallback_capture_method env m url_id url in
    if raised then outer_handler m1 else m1 in
  if negb (PyStr.truthy url) then outer_handler m
  else if negb (PyStr.truthy (scheme env url))
          || negb (PyStr.truthy (netloc env url))
  then fallback m
  else
    match gethostbyname env (netloc env url) with
    | None => fallback m
    | Some ip =>
        match captured env with
        | TcpdumpMissing | NoOutputFile | NothingParsed | CaptureRaises =>
            fallback m
        | Parsed [] => fallback m
        | Parsed reqs => save_and_commit res_ip url_id reqs m
        | SetupRaises => outer_handler m
        end
    end.

(** *** The scheduler *)

Definition set_scheduler (sched : gmap nat job) (next : nat)
    (js : gmap Z nat) (m : t) : t :=
  mk (url_statuses m) (subsequent_requests m) (pending m) sched next js
     (threads m).

(** [job.remove()] *)
Definition remove_job (j : nat) (m : t) : t :=
  set_scheduler (delete j (scheduler m)) (next_job m) (jobs m) m.

(** [start_monitoring] *)
Definition start_monitoring (env : ProbeEnv) (m : t) (url_obj : URL) : t :=
  let m1 :=
    match jobs m !! id url_obj with
    | Some old => remove_job old m
    | None => m
    end in
  let j := next_job m1 in
  let m2 :=
    set_scheduler
      (<[j := mkJob (check_frequency url_obj) (id url_obj, url url_obj)]>
         (scheduler m1))
      (S j)
      (<[id url_obj := j]> (jobs m1)) m1 in
  (check_url env m2 (id url_obj) (url url_obj)).1.

(** [stop_monitoring] *)
Definition stop_monitoring (m : t) (url_id : Z) : t * bool :=
  match jobs m !! url_id with
  | Some j =>
      let m1 := remove_job j m in
      (set_scheduler (scheduler m1) (next_job m1) (delete url_id (jobs m1)) m1,
       true)
  | None => (m, false)
  end.

(** [update_frequency] *)
Definition update_frequency (env : ProbeEnv) (m : t) (url_obj : URL)
    : t * bool :=
  match jobs m !! id url_obj with
  | Some _ =>
      (start_monitoring env (stop_monitoring m (id url_obj)).1 url_obj, true)
  | None => (m, false)
  end.

(** The dict [self.jobs] and the job store agree: every entry of the
    dict is a job of the store made for that target, every job of the
    store is the dict's entry for its target, and the ids handed out so
    far are below [next_job]. *)
Definition consistent (m : t) : Prop :=
  (forall i j, jobs m !! i = Some j ->
     exists jb, scheduler m !! j = Some jb /\ (args jb).1 = i)
  /\ (forall j jb, scheduler m !! j = Some jb ->
        jobs m !! (args jb).1 = Some j)
  /\ (forall j, is_Some (scheduler m !! j) -> (j < next_job m)%nat).

(** The pairs (target id, resolved URL) of the committed sub-resource
    rows. *)
Definition recorded_pairs (m : t) : list (Z * string) :=
  map (fun r => (parent_id r, target_url r)) (subsequent_requests m).

(** The row the loops of lines 185-212 and 394-410 add for a resource. *)
Definition row_of (ip_of : resource -> string) (url_id : Z) (r : resource)
    : SubsequentRequest :=
  mkSubsequentRequest url_id (res_url r) (ip_of r) (res_type r) (res_state r)
    (res_protocol r).

(** One pass over [url] finds no address twice: the references of the
    fetched page are pairwise different, and so are the addresses of the
    captured requests. *)
Definition finds_each_url_once (env : DiscoveryEnv) (url : string) : Prop :=
  (forall header scripts stylesheets images,
     fetched env (with_scheme url)
       = Fetched header scripts stylesheets images ->
     NoDup (scripts ++ stylesheets ++ images))
  /\ (forall reqs, captured env = Parsed reqs -> NoDup (map res_url reqs)).

(** How a pass that is not cut short ends: with an insert-if-absent of one
    record of the target, or with the loop over a non-empty list of
    resources. *)
Definition pass_result (env : DiscoveryEnv) (m : t) (url_id : Z)
    (url : string) (m' : t) : Prop :=
  (exists req, parent_id req = url_id /\ m' = add_if_new req m)
  \/ (exists ip_of resources,
        resources <> []
        /\ m' = save_and_commit ip_of url_id resources m
        /\ (finds_each_url_once env url -> NoDup (map res_url resources))).

(** *** parse_capture_file *)

(** The [layers] dict of a packet of tshark's JSON output, as far as the
    code looks into it: which keys it has, the [ip.dst] of its [ip] entry
    and the [http.request.full_uri] of its [http] entry, if any. *)
Record layers := mkLayers {
  frame : bool;
  ip : option (option string);
  tcp : bool;
  udp : bool;
  http : option (option string)
}.

(** A packet: its [_ws.col.Protocol] and [layers] entries, if any. *)
Record packet := mkPacket {
  ws_col_protocol : option string;
  packet_layers : option layers
}.

(** Lines 504-513: the type of a request by the end of its address. *)
Definition type_of_uri (uri : string) : string :=
  if PyStr.endswith_any uri [".jpg"; ".jpeg"; ".png"; ".gif"] then "Image"
  else if PyStr.endswith uri ".css" then "Stylesheet"
  else if PyStr.endswith uri ".js" then "JavaScript"
  else if PyStr.endswith_any uri [".html"; ".htm"] then "HTML"
  else "Other".

(** Lines 480-527: one packet of the tshark output. *)
Definition parse_packet (p : packet) : resource :=
  match ws_col_protocol p with
  | Some proto => mkResource "Unknown" "Unknown" "Unknown" "Unknown" proto
  | None =>
      match packet_layers p with
      | Some l =>
          if frame l then
            let ip_dst :=
              match ip l with
              | Some dst => Some (default "Unknown" dst)
              | None => None
              end in
            let transport :=
              match ip l with
              | Some _ =>
                  if tcp l then Some ("TCP", "Stateful")
                  else if udp l then Some ("UDP", "Stateless")
                  else None
              | None => None
              end in
            let uri :=
              match http l with
              | Some (Some full_uri) => Some full_uri
              | _ => None
              end in
            mkResource (default "Unknown" uri) (default "Unknown" ip_dst)
              (default "Unknown" (type_of_uri <$> uri))
              (default "Unknown" (snd <$> transport))
              (default "Unknown" (fst <$> transport))
          else mkResource "Unknown" "Unknown" "Unknown" "Unknown" "Unknown"
      | None => mkResource "Unknown" "Unknown" "Unknown" "Unknown" "Unknown"
      end
  end.

(** Lines 539-556: one match [(method, path)] of the regular expression
    on the raw file. *)
Definition request_of_match (found : string * string) : resource :=
  let path := found.2 in
  mkResource path "Unknown"
    (if PyStr.endswith_any path [".jpg"; ".jpeg"; ".png"; ".gif"]
     then "Image"
     else if PyStr.endswith path ".css" then "Stylesheet"
     else if PyStr.endswith path ".js" then "JavaScript"
     else "HTML")
    "Stateful" "TCP".

(** Running tshark on the file: the call raises (tshark is not
    installed), or it returns, with the list of packets decoded from its
    output, if there is output and it is JSON. *)
Inductive tshark :=
| TsharkRaises
| TsharkReturns (packets : option (list packet)).

(** The capture file as [parse_capture_file] finds it: whether it exists,
    what tshark makes of it, and the matches of the regular expression on
    its bytes ([None]: reading it raises). *)
Record capture_file := mkCaptureFile {
  file_exists : bool;
  tshark_run : tshark;
  http_matches : option (list (string * string))
}.

Definition parse_capture_file (f : capture_file) : list resource :=
  if negb (file_exists f) then []
  else
    match tshark_run f with
    | TsharkRaises => []
    | TsharkReturns packets =>
        let requests_data :=
          match packets with
          | Some ps => map parse_packet ps
          | None => []
          end in
        match requests_data with
        | [] =>
            match http_matches f with
            | Some found => map request_of_match found
            | None => []
            end
        | _ => requests_data
        end
    end.

End NetworkMonitor.

(** ** app.py: the request handlers and the start-up block *)

Module App.

Local Open Scope Z_scope.

(** The [urls] table with its next primary key, and the module-level
    [monitor]. *)
Record t := mk {
  urls : gmap Z URL;
  next_id : Z;
  monitor : NetworkMonitor.t
}.

(** The JSON body of POST /api/urls *)
Record add_request := mkAdd {
  req_url : string;
  req_name : option string;
  req_check_frequency : option Z;
  req_one_time : bool
}.

(** The JSON body of PUT /api/urls/<id> *)
Record update_request := mkUpdate {
  new_name : option string;
  new_check_frequency : option Z;
  new_is_active : option bool
}.

Inductive reply :=
| BadRequest                       (* 400 *)
| Conflict (existing_url_id : Z)   (* 409 *)
| NotFound                         (* 404 *)
| OneTimeResult (url_id : Z) (status : option URLStatus)
    (subsequent : list SubsequentRequest)
| Created (url_id : Z)             (* 201 *)
| Updated (url_id : Z)
| Deleted (url_id : Z) (deleted_status_records deleted_subsequent_requests : nat).

(** [db.query(URL).filter(URL.url == u, URL.is_one_time == False).first()] *)
Definition monitored_with_url (app : t) (u : string) : option URL :=
  snd <$> find (fun kv => String.eqb (url kv.2) u && negb (is_one_time kv.2))
               (map_to_list (urls app)).

(** [add_url]; [env_first] answers the immediate check, [env_job] the
    check made by [start_monitoring]. The sub-resource records of a
    one-time reply are read here from the table as the check left it;
    the handler reads them two seconds later, when the discovery thread
    may have committed more. *)
Definition add_url (env_first env_job : NetworkMonitor.ProbeEnv) (app : t)
    (data : add_request) : t * reply :=
  if negb (PyStr.truthy (req_url data)) then (app, BadRequest)
  else
    let one_time := req_one_time data in
    match (if one_time then None else monitored_with_url app (req_url data)) with
    | Some existing => (app, Conflict (id existing))
    | None =>
        let u :=
          mkURL (next_id app) (req_url data)
                (default (req_url data) (req_name data))
                (negb one_time)
                (default 60 (req_check_frequency data))
                one_time false 0 None true in
        let rows := <[next_id app := u]> (urls app) in
        let '(m1, status) :=
          NetworkMonitor.check_url env_first (monitor app) (id u) (url u) in
        if one_time then
          (mk rows (next_id app + 1) m1,
           OneTimeResult (id u)
             (last (filter (fun st => url_id st = id u)
                           (NetworkMonitor.url_statuses m1)))
             (filter (fun r => parent_id r = id u)
                     (NetworkMonitor.subsequent_requests m1)))
        else
          let m2 :=
            if is_active u then NetworkMonitor.start_monitoring env_job m1 u
            else m1 in
          (mk rows (next_id app + 1) m2, Created (id u))
    end.

(** [update_url] *)
Definition update_url (env : NetworkMonitor.ProbeEnv) (app : t) (url_id : Z)
    (data : update_request) : t * reply :=
  match urls app !! url_id with
  | None => (app, NotFound)
  | Some u =>
      let u := match new_name data with
               | Some n => set_name n u | None => u end in
      let u := match new_check_frequency data with
               | Some f => set_check_frequency f u | None => u end in
      let u := match new_is_active data with
               | Some b => set_is_active b u | None => u end in
      let m :=
        if is_active u
        then (NetworkMonitor.update_frequency env (monitor app) u).1
        else (NetworkMonitor.stop_monitoring (monitor app) (id u)).1 in
      (mk (<[url_id := u]> (urls app)) (next_id app) m, Updated (id u))
  end.

(** [delete_url] *)
Definition delete_url (app : t) (url_id : Z) : t * reply :=
  match urls app !! url_id with
  | None => (app, NotFound)
  | Some u =>
      let m := (NetworkMonitor.stop_monitoring (monitor app) (id u)).1 in
      let statuses := NetworkMonitor.url_statuses m in
      let subsequent := NetworkMonitor.subsequent_requests m in
      let m' :=
        NetworkMonitor.mk
          (filter (fun st => Models.url_id st <> url_id) statuses)
          (filter (fun r => parent_id r <> url_id) subsequent)
          (NetworkMonitor.pending m) (NetworkMonitor.scheduler m)
          (NetworkMonitor.next_job m) (NetworkMonitor.jobs m)
          (NetworkMonitor.threads m) in
      (mk (delete url_id (urls app)) (next_id app) m',
       Deleted url_id
         (length (filter (fun st => Models.url_id st = url_id) statuses))
         (length (filter (fun r => parent_id r = url_id) subsequent)))
  end.

(** The process starts: [monitor = NetworkMonitor(db)] on the tables as
    they are on disk, then the [__main__] block starts monitoring every
    row with [is_active == True]. *)
Definition main (env : NetworkMonitor.ProbeEnv) (app : t) : t :=
  let m0 :=
    NetworkMonitor.mk (NetworkMonitor.url_statuses (monitor app))
      (NetworkMonitor.subsequent_requests (monitor app)) [] ∅ 0%nat ∅ [] in
  let active_urls :=
    filter (fun u => is_active u = true) (snd <$> map_to_list (urls app)) in
  mk (urls app) (next_id app)
     (foldl (NetworkMonitor.start_monitoring env) m0 active_urls).

(** The target has an entry in the scheduler's recurring jobs. *)
Definition scheduled (app : t) (url_id : Z) : bool :=
  bool_decide (is_Some (NetworkMonitor.jobs (monitor app) !! url_id)).

(** A request to the API, with what the network answers while it is
    handled. *)
Inductive request :=
| Add (env_first env_job : NetworkMonitor.ProbeEnv) (data : add_request)
| Update (env : NetworkMonitor.ProbeEnv) (url_id : Z) (data : update_request)
| Delete (url_id : Z).

Definition handle (app : t) (r : request) : t :=
  match r with
  | Add env_first env_job data => (add_url env_first env_job app data).1
  | Update env url_id data => (update_url env app url_id data).1
  | Delete url_id => (delete_url app url_id).1
  end.

(** The requests of a process, handled one after the other. *)
Definition serve (app : t) (requests : list request) : t :=
  foldl handle app requests.

(** Every entry of the monitor's dict is for a row that is active and not
    one-time, and its job runs at the row's frequency on the row's
    address. *)
Definition jobs_ok (rows : gmap Z URL) (m : NetworkMonitor.t) : Prop :=
  forall i j, NetworkMonitor.jobs m !! i = Some j ->
    exists u, rows !! i = Some u
      /\ is_active u = true
      /\ is_one_time u = false
      /\ NetworkMonitor.scheduler m !! j
         = Some (NetworkMonitor.mkJob (check_frequency u) (i, url u)).

(** What the handlers keep true: dict and job store agree; a row is stored
    under its own id, below the next id; jobs belong to active recurring
    rows; recurring rows have pairwise different addresses. *)
Definition well_formed (app : t) : Prop :=
  NetworkMonitor.consistent (monitor app)
  /\ (forall i u, urls app !! i = Some u -> id u = i /\ i < next_id app)
  /\ jobs_ok (urls app) (monitor app)
  /\ (forall i i' u u', urls app !! i = Some u -> urls app !! i' = Some u' ->
        is_one_time u = false -> is_one_time u' = false ->
        url u = url u' -> i = i').

End App.

(** ** The scenario of the specification

    A target checked every 60 seconds with alerts enabled, a manager with
    the default threshold 2 and cooldown of 15 minutes. *)

Module Scenario.

Local Open Scope Z_scope.

Definition manager : AlertManager.t :=
  AlertManager.mk "https://hooks.slack.com/services/T/B/X" 2 15.

(** The target after a first failed probe. *)
Definition target : URL :=
  mkURL 1 "https://example.com" "example" true 60 false true 1 None true.

Definition table : gmap Z URL := {[ 1 := target ]}.

(** The same target, alerted 5 minutes before the clock reads
    [600000000], with one failure counted. *)
Definition alerted_target : URL :=
  set_last_alerted_at (Some 300000000) target.

Definition alerted_table : gmap Z URL := {[ 1 := alerted_target ]}.

(** The target before any failure. *)
Definition healthy_target : URL := set_consecutive_failures 0 target.

(** The same target after a streak of three failures. *)
Definition alerting_target : URL := set_consecutive_failures 3 target.

Definition alerting_table : gmap Z URL := {[ 1 := alerting_target ]}.

Definition down : URLStatus := mkURLStatus 1 0 0 false (Some "timed out").
Definition up : URLStatus := mkURLStatus 1 200 120000 true None.

(** The clock reads [now] and the webhook accepts / refuses the post. *)
Definition webhook_accepts (now : Z) : AlertManager.Env :=
  AlertManager.mkEnv now true now.
Definition webhook_refuses (now : Z) : AlertManager.Env :=
  AlertManager.mkEnv now false now.

(** A monitor that has just been created. *)
Definition fresh_monitor : NetworkMonitor.t :=
  NetworkMonitor.mk [] [] [] ∅ 0 ∅ [].



(** The probed server answers with the given status line. *)
Definition probe_answers (code elapsed : Z) : NetworkMonitor.ProbeEnv :=
  NetworkMonitor.mkProbeEnv None None (inr (code, elapsed)).

(** An installation with an empty database. *)
Definition fresh_app : App.t := App.mk ∅ 1 fresh_monitor.

Definition server_up : NetworkMonitor.ProbeEnv := probe_answers 200 120000.

(** Request bodies: add https://example.com as a recurring target or as a
    one-time check; set [is_active] to false or to true. *)
Definition add_recurring : App.add_request :=
  App.mkAdd "https://example.com" None None false.
Definition add_one_time : App.add_request :=
  App.mkAdd "https://example.com" None None true.
Definition pause : App.update_request := App.mkUpdate None None (Some false).
Definition resume : App.update_request := App.mkUpdate None None (Some true).

(** Nothing can be fetched or printed, and the placeholder of the target
    is already on record. *)
Definition nothing_works : NetworkMonitor.DiscoveryEnv :=
  NetworkMonitor.mkDiscoveryEnv true
    (fun _ => "https") (fun _ => "example.com")
    (fun _ => None)
    (fun _ => NetworkMonitor.OtherException)
    NetworkMonitor.SetupRaises true.

Definition monitor_with_placeholder : NetworkMonitor.t :=
  NetworkMonitor.mk []
    [NetworkMonitor.placeholder 1 "https://example.com" "Could not determine"]
    [] ∅ 0 ∅ [].

(** https://example.com serves an HTML page that shows the same logo
    twice; tcpdump is not installed. *)
Definition logo : string := "https://example.com/logo.png".

Definition page_with_repeated_logo : NetworkMonitor.DiscoveryEnv :=
  NetworkMonitor.mkDiscoveryEnv true
    (fun _ => "https") (fun _ => "example.com")
    (fun _ => Some "93.184.216.34")
    (fun _ => NetworkMonitor.Fetched "text/html; charset=UTF-8" [] []
                [logo; logo])
    NetworkMonitor.TcpdumpMissing false.

(** tcpdump works and sees two packets without an HTTP request line, for
    which [parse_capture_file] fills in the URL Unknown. *)
Definition packet : NetworkMonitor.resource :=
  NetworkMonitor.mkResource "Unknown" "Unknown" "Unknown" "Unknown" "Unknown".

Definition capture_of_two_packets : NetworkMonitor.DiscoveryEnv :=
  NetworkMonitor.mkDiscoveryEnv true
    (fun _ => "https") (fun _ => "example.com")
    (fun _ => Some "93.184.216.34")
    (fun _ => NetworkMonitor.RequestException)
    (NetworkMonitor.Parsed [packet; packet]) false.

(** A one-time check of the same address, alerts enabled by hand. *)
Definition one_time_row : URL :=
  mkURL 7 "https://example.com" "example" false 60 true true 0 None true.

(** The monitor after the target has been scheduled once, and the
    target's row with its frequency changed to 30 seconds. *)
Definition scheduled_monitor : NetworkMonitor.t :=
  NetworkMonitor.start_monitoring server_up fresh_monitor target.

Definition faster_target : URL := set_check_frequency 30 target.

(** A manager whose SLACK_WEBHOOK_URL is set to the empty string. *)
Definition silent_manager : AlertManager.t := AlertManager.mk EmptyString 2 15.

(** A manager whose ALERT_FAILURE_THRESHOLD is 0. *)
Definition zero_threshold_manager : AlertManager.t :=
  AlertManager.mk "https://hooks.slack.com/services/T/B/X" 0 15.

(** https://example.com serves an HTML page with one script, one
    stylesheet and one image; tcpdump is not installed. *)
Definition page_with_three_resources : NetworkMonitor.DiscoveryEnv :=
  NetworkMonitor.mkDiscoveryEnv true
    (fun _ => "https") (fun _ => "example.com")
    (fun _ => Some "93.184.216.34")
    (fun _ => NetworkMonitor.Fetched "text/html; charset=UTF-8"
                ["https://example.com/app.js"] ["https://example.com/site.css"]
                [logo])
    NetworkMonitor.TcpdumpMissing false.

(** An installation whose database holds the target of the scenario. *)
Definition installed_app : App.t := App.mk {[ 1 := target ]} 2 fresh_monitor.

End Scenario.

(** * Properties *)

(** ** The alert tracker *)

Section AlertFacts.

Import AlertManager.
Local Open Scope Z_scope.

Variable self : AlertManager.t.

Lemma count_app p (tr1 tr2 : list event) :
  count p (tr1 ++ tr2) = (count p tr1 + count p tr2)%nat.
Proof. induction tr1 as [|e tr1 IH]; simpl; [done | rewrite IH; lia]. Qed.

Lemma untracked_step env db i st :
  (forall u, ~ tracked db i u) ->
  process_status_for_alerts self env db i st = (db, []).
Proof.
  intros Hno. unfold process_status_for_alerts.
  destruct (db !! i) as [u|] eqn:Hu; [|done].
  destruct (alert_enabled u) eqn:Ha, (is_one_time u) eqn:Ho; simpl; try done.
  exfalso. by apply (Hno u).
Qed.

Lemma up_step env db i u st :
  tracked db i u -> is_up st = true ->
  process_status_for_alerts self env db i st =
    (<[i := set_consecutive_failures 0 u]> db,
     if alerting self u && alert_recovery u
     then Call Recovery (id u) :: (send_recovery_alert self env u).2
     else []).
Proof.
  intros (Hu & Ha & Ho) Hup. unfold process_status_for_alerts, alerting.
  by rewrite Hu, Ha, Ho, Hup.
Qed.

Lemma down_step env db i u st :
  tracked db i u -> is_up st = false ->
  process_status_for_alerts self env db i st =
    let u1 := set_consecutive_failures (consecutive_failures u + 1) u in
    if consecutive_failures u + 1 =? failure_threshold self then
      (<[i := (send_failure_alert self env u1 st).1.1]> db,
       Call Failure (id u) :: (send_failure_alert self env u1 st).2)
    else (<[i := u1]> db, []).
Proof.
  intros (Hu & Ha & Ho) Hdown. unfold process_status_for_alerts.
  rewrite Hu, Ha, Ho, Hdown. simpl.
  destruct (consecutive_failures u + 1 =? failure_threshold self); [|done].
  by destruct (send_failure_alert _ _ _ _) as [[u2 b] tr].
Qed.

(** [send_failure_alert] touches [last_alerted_at] only. *)
Lemma send_failure_alert_row env u st :
  let u2 := (send_failure_alert self env u st).1.1 in
  consecutive_failures u2 = consecutive_failures u
  /\ alert_enabled u2 = alert_enabled u
  /\ is_one_time u2 = is_one_time u
  /\ alert_recovery u2 = alert_recovery u
  /\ id u2 = id u.
Proof.
  unfold send_failure_alert.
  destruct (webhook_unset self), (in_cooldown self env u), (post_ok env);
    simpl; done.
Qed.

Lemma send_failure_alert_calls env u st :
  count (is_call Failure) (send_failure_alert self env u st).2 = 0%nat.
Proof.
  unfold send_failure_alert.
  destruct (webhook_unset self), (in_cooldown self env u), (post_ok env);
    simpl; done.
Qed.

Lemma send_failure_alert_posts env u st :
  (count (is_post Failure) (send_failure_alert self env u st).2 <= 1)%nat.
Proof.
  unfold send_failure_alert.
  destruct (webhook_unset self), (in_cooldown self env u), (post_ok env);
    simpl; lia.
Qed.

Lemma send_recovery_alert_no_failure env u p :
  p = is_call Failure \/ p = is_post Failure ->
  count p (send_recovery_alert self env u).2 = 0%nat.
Proof.
  intros Hp. unfold send_recovery_alert.
  destruct (webhook_unset self), (post_ok env), Hp; subst; simpl; done.
Qed.

(** After a down outcome the target is still tracked and its counter has
    grown by one. *)
Lemma down_step_row env db i u st :
  tracked db i u -> is_up st = false ->
  exists u', tracked (process_status_for_alerts self env db i st).1 i u'
             /\ consecutive_failures u' = consecutive_failures u + 1.
Proof.
  intros Ht Hdown. rewrite (down_step env db i u st Ht Hdown). simpl.
  destruct Ht as (Hu & Ha & Ho).
  destruct (consecutive_failures u + 1 =? failure_threshold self); simpl.
  - pose proof (send_failure_alert_row env
      (set_consecutive_failures (consecutive_failures u + 1) u) st)
      as (Hc & Ha' & Ho' & _).
    eexists. split; [split; [apply lookup_insert_eq|]|].
    + simpl in *. by rewrite Ha', Ho'.
    + by rewrite Hc.
  - eexists. split; [split; [apply lookup_insert_eq|]|]; done.
Qed.

Lemma tracked_dec (db : gmap Z URL) (i : Z) :
  (exists u, tracked db i u) \/ (forall u, ~ tracked db i u).
Proof.
  unfold tracked. destruct (db !! i) as [u|] eqn:Hu.
  - destruct (alert_enabled u) eqn:Ha, (is_one_time u) eqn:Ho;
      try (right; intros u' (Hu' & Ha' & Ho'); congruence).
    left. by exists u.
  - right. intros u' (Hu' & _). congruence.
Qed.

Lemma run_cons db i st env rest :
  run self db i ((st, env) :: rest) =
    let r := process_status_for_alerts self env db i st in
    ((run self r.1 i rest).1, r.2 ++ (run self r.1 i rest).2).
Proof.
  simpl. destruct (process_status_for_alerts self env db i st) as [db1 tr1].
  simpl. by destruct (run self db1 i rest).
Qed.

(** In one call, a failure notification is posted only after
    [send_failure_alert] was entered. *)
Lemma step_posts_le_calls env db i st :
  (count (is_post Failure) (process_status_for_alerts self env db i st).2
   <= count (is_call Failure) (process_status_for_alerts self env db i st).2)%nat.
Proof.
  destruct (tracked_dec db i) as [[u Ht]|Hno].
  - destruct (is_up st) eqn:Hup.
    + rewrite (up_step env db i u st Ht Hup). simpl.
      destruct (alerting self u && alert_recovery u); simpl; [|lia].
      rewrite !send_recovery_alert_no_failure; auto.
    + rewrite (down_step env db i u st Ht Hup). simpl.
      destruct (consecutive_failures u + 1 =? failure_threshold self);
        simpl; [|lia].
      pose proof (send_failure_alert_posts env
        (set_consecutive_failures (consecutive_failures u + 1) u) st).
      lia.
  - rewrite untracked_step by done. simpl. lia.
Qed.

Lemma run_posts_le_calls checks : forall db i,
  (count (is_post Failure) (run self db i checks).2
   <= count (is_call Failure) (run self db i checks).2)%nat.
Proof.
  induction checks as [|[st env] rest IH]; intros db i; [simpl; lia|].
  rewrite run_cons. simpl. rewrite !count_app.
  pose proof (step_posts_le_calls env db i st).
  pose proof (IH (process_status_for_alerts self env db i st).1 i). lia.
Qed.

(** Along a down-streak the counter only grows, so it meets the threshold
    at most once, and never again once it has reached it. *)
Lemma streak_calls checks :
  all_down checks -> forall db i,
    (count (is_call Failure) (run self db i checks).2 <= 1)%nat
    /\ (forall u, tracked db i u ->
          failure_threshold self <= consecutive_failures u ->
          count (is_call Failure) (run self db i checks).2 = 0%nat).
Proof.
  induction 1 as [|[st env] rest Hdown _ IH]; intros db i.
  { simpl. split; [lia | done]. }
  simpl in Hdown. rewrite run_cons. simpl. rewrite count_app.
  destruct (tracked_dec db i) as [[u Ht]|Hno].
  - destruct (down_step_row env db i u st Ht Hdown) as (u' & Ht' & Hc').
    destruct (IH (process_status_for_alerts self env db i st).1 i)
      as [IH1 IH2].
    specialize (IH2 u' Ht').
    rewrite (down_step env db i u st Ht Hdown) in *. simpl in *.
    destruct (consecutive_failures u + 1 =? failure_threshold self) eqn:Heq;
      simpl in *.
    + apply Z.eqb_eq in Heq. rewrite send_failure_alert_calls.
      rewrite IH2 by lia. split; [lia|].
      intros u0 (Hu0 & _) Hge. destruct Ht as (Hu & _).
      assert (u0 = u) by congruence. subst. lia.
    + apply Z.eqb_neq in Heq. split; [lia|].
      intros u0 (Hu0 & _) Hge. destruct Ht as (Hu & _).
      assert (u0 = u) by congruence. subst. apply IH2. lia.
  - rewrite untracked_step by done. simpl.
    destruct (IH db i) as [IH1 IH2]. split; [done|].
    intros u Ht. by destruct (Hno u).
Qed.

(** C1. For a tracked target (alerts enabled, not one-time),
    [process_status_for_alerts] raises a failure alert, that is, hands the
    outcome to [send_failure_alert], exactly when a down outcome takes
    [consecutive_failures] from threshold-1 to threshold; a failure
    notification is posted to the webhook only at such a step, and at
    every such step when the webhook is set and the target is outside its
    cooldown. Along any contiguous run of down outcomes this happens at
    most once, and not at all once the counter has reached the
    threshold. *)
Theorem failure_alert_at_threshold_crossing :
  forall (env : Env) (db : gmap Z URL) (i : Z) (u : URL) (st : URLStatus),
    tracked db i u ->
    let r := process_status_for_alerts self env db i st in
    (count (is_call Failure) r.2 = 1%nat <->
       crossing self u st
       /\ exists u', r.1 !! i = Some u'
            /\ consecutive_failures u' = failure_threshold self)
    /\ (count (is_call Failure) r.2 = 0%nat <-> ~ crossing self u st)
    /\ (count (is_post Failure) r.2 <> 0%nat -> crossing self u st)
    /\ (webhook_unset self = false -> in_cooldown self env u = false ->
        (count (is_post Failure) r.2 = 1%nat <-> crossing self u st))
    /\ (forall checks, all_down checks ->
          (count (is_call Failure) (run self db i checks).2 <= 1)%nat
          /\ (count (is_post Failure) (run self db i checks).2 <= 1)%nat
          /\ (failure_threshold self <= consecutive_failures u ->
              count (is_call Failure) (run self db i checks).2 = 0%nat
              /\ count (is_post Failure) (run self db i checks).2 = 0%nat)).
Proof.
  intros env db i u st Ht r.
  assert (Hcalls : (count (is_call Failure) r.2 = 1%nat /\ crossing self u st
                    /\ exists u', r.1 !! i = Some u'
                         /\ consecutive_failures u' = failure_threshold self)
                   \/ (count (is_call Failure) r.2 = 0%nat
                       /\ count (is_post Failure) r.2 = 0%nat
                       /\ ~ crossing self u st)).
  { subst r. unfold crossing. destruct (is_up st) eqn:Hup.
    - right. rewrite (up_step env db i u st Ht Hup). simpl.
      destruct (alerting self u && alert_recovery u); simpl.
      + rewrite !send_recovery_alert_no_failure by auto.
        repeat split; try done. intros [? _]; done.
      + repeat split; try done. intros [? _]; done.
    - rewrite (down_step env db i u st Ht Hup). simpl.
      destruct (consecutive_failures u + 1 =? failure_threshold self) eqn:Heq;
        simpl.
      + apply Z.eqb_eq in Heq. left. rewrite send_failure_alert_calls.
        split; [done|]. split; [split; [done | lia]|].
        eexists. split; [apply lookup_insert_eq|].
        pose proof (send_failure_alert_row env
          (set_consecutive_failures (consecutive_failures u + 1) u) st)
          as (Hc & _). simpl in Hc. by rewrite Hc.
      + apply Z.eqb_neq in Heq. right. repeat split; try done.
        intros [_ ?]. lia. }
  split; [|split; [|split; [|split]]].
  - destruct Hcalls as [(H1 & Hx & Hu')|(H0 & _ & Hn)]; split; try done.
    + intros Hc. rewrite H0 in Hc. done.
    + intros [Hx _]. done.
  - destruct Hcalls as [(H1 & Hx & Hu')|(H0 & _ & Hn)]; split; try done.
    intros Hc. rewrite H1 in Hc. done.
  - destruct Hcalls as [(H1 & Hx & Hu')|(_ & H0 & Hn)]; [done|].
    intros Hc. by rewrite H0 in Hc.
  - intros Hw Hcd. destruct Hcalls as [(H1 & Hx & Hu')|(_ & H0 & Hn)].
    + split; [done|]. intros _. subst r.
      destruct Hx as [Hdown Hcf].
      rewrite (down_step env db i u st Ht Hdown). simpl.
      replace (consecutive_failures u + 1 =? failure_threshold self)
        with true by (symmetry; apply Z.eqb_eq; lia).
      simpl. unfold send_failure_alert. rewrite Hw.
      unfold in_cooldown in *. simpl. rewrite Hcd.
      by destruct (post_ok env).
    + split; [|done]. intros Hc. rewrite H0 in Hc. done.
  - intros checks Hdown.
    destruct (streak_calls checks Hdown db i) as [Hle Hzero].
    pose proof (run_posts_le_calls checks db i) as Hpc.
    split; [done|]. split; [lia|].
    intros Hge. specialize (Hzero u Ht Hge). split; [done | lia].
Qed.

(** What a call does to the row of a tracked target: the target stays
    tracked, and [last_alerted_at] either is left alone, with nothing
    delivered, or is stamped with the clock after a delivery made outside
    the cooldown. *)
Lemma step_row env db i u st :
  tracked db i u ->
  exists u', tracked (process_status_for_alerts self env db i st).1 i u'
    /\ ((last_alerted_at u' = last_alerted_at u
         /\ count (is_delivered Failure)
              (process_status_for_alerts self env db i st).2 = 0%nat)
        \/ (last_alerted_at u' = Some (now_stamp env)
            /\ in_cooldown self env u = false)).
Proof.
  intros Ht. pose proof Ht as (Hu & Ha & Ho).
  destruct (is_up st) eqn:Hup.
  - rewrite (up_step env db i u st Ht Hup). simpl.
    exists (set_consecutive_failures 0 u).
    split; [split; [apply lookup_insert_eq | done]|].
    left. split; [done|].
    destruct (alerting self u && alert_recovery u); [|done].
    unfold send_recovery_alert.
    by destruct (webhook_unset self), (post_ok env).
  - rewrite (down_step env db i u st Ht Hup). simpl.
    destruct (consecutive_failures u + 1 =? failure_threshold self); simpl.
    + eexists. split; [split; [apply lookup_insert_eq|]|].
      * pose proof (send_failure_alert_row env
          (set_consecutive_failures (consecutive_failures u + 1) u) st)
          as (_ & Ha' & Ho' & _). simpl in *. by rewrite Ha', Ho'.
      * unfold send_failure_alert, in_cooldown. simpl.
        destruct (webhook_unset self); [by left|].
        destruct (last_alerted_at u) as [l|] eqn:Hl; simpl.
        -- destruct (now_check env - l <? cooldown self); simpl;
             [by left|].
           destruct (post_ok env); [by right | by left].
        -- destruct (post_ok env); [by right | by left].
    + eexists. split; [split; [apply lookup_insert_eq | done]|]. by left.
Qed.

(** Inside the cooldown nothing is posted and the stamp stays. *)
Lemma step_in_cooldown env db i u st last :
  tracked db i u -> last_alerted_at u = Some last ->
  now_check env - last < cooldown self ->
  count (is_post Failure) (process_status_for_alerts self env db i st).2
    = 0%nat
  /\ exists u', tracked (process_status_for_alerts self env db i st).1 i u'
       /\ last_alerted_at u' = Some last.
Proof.
  intros Ht Hlast Hcd. pose proof Ht as (Hu & Ha & Ho).
  assert (Hin : forall n, in_cooldown self env
                  (set_consecutive_failures n u) = true).
  { intros n. unfold in_cooldown. simpl. rewrite Hlast.
    by apply Z.ltb_lt. }
  destruct (is_up st) eqn:Hup.
  - rewrite (up_step env db i u st Ht Hup). simpl. split.
    + destruct (alerting self u && alert_recovery u); [|done].
      simpl. by apply send_recovery_alert_no_failure; right.
    + eexists. split; [split; [apply lookup_insert_eq | done]|]. done.
  - rewrite (down_step env db i u st Ht Hup). simpl.
    destruct (consecutive_failures u + 1 =? failure_threshold self); simpl.
    + unfold send_failure_alert. rewrite Hin.
      destruct (webhook_unset self); simpl.
      * split; [done|]. eexists.
        split; [split; [apply lookup_insert_eq | done]|]. done.
      * split; [done|]. eexists.
        split; [split; [apply lookup_insert_eq | done]|]. done.
    + split; [done|]. eexists.
      split; [split; [apply lookup_insert_eq | done]|]. done.
Qed.

(** A whole run that stays inside the cooldown window of [last] posts no
    failure notification and leaves the stamp where it was. *)
Lemma run_in_cooldown checks last : forall db i u,
  tracked db i u -> last_alerted_at u = Some last ->
  Forall (fun c => now_check c.2 - last < cooldown self) checks ->
  count (is_post Failure) (run self db i checks).2 = 0%nat
  /\ exists u', tracked (run self db i checks).1 i u'
       /\ last_alerted_at u' = Some last.
Proof.
  induction checks as [|[st env] rest IH]; intros db i u Ht Hlast Hall.
  { simpl. split; [done|]. by exists u. }
  inversion Hall as [|? ? Hc Hrest]; subst. simpl in Hc.
  destruct (step_in_cooldown env db i u st last Ht Hlast Hc)
    as (Hp & u1 & Ht1 & Hlast1).
  destruct (IH _ i u1 Ht1 Hlast1 Hrest) as (Hp' & u2 & Ht2 & Hlast2).
  rewrite run_cons. simpl. rewrite count_app, Hp, Hp'.
  split; [done|]. by exists u2.
Qed.

(** While the clock never reads less than [a], a stamp that is at least
    [a] stays at least [a]. *)
Lemma run_stamp_ge checks a : forall db i u l,
  tracked db i u -> last_alerted_at u = Some l -> a <= l ->
  Forall (fun c => a <= now_stamp c.2) checks ->
  exists u' l', tracked (run self db i checks).1 i u'
    /\ last_alerted_at u' = Some l' /\ a <= l'.
Proof.
  induction checks as [|[st env] rest IH]; intros db i u l Ht Hl Hge Hall.
  { simpl. by exists u, l. }
  inversion Hall as [|? ? Hc Hrest]; subst. simpl in Hc.
  rewrite run_cons. simpl.
  destruct (step_row env db i u st Ht) as (u1 & Ht1 & [[Hsame _]|[Hnew _]]).
  - apply (IH _ i u1 l); try done. congruence.
  - by apply (IH _ i u1 (now_stamp env)).
Qed.

(** C2. A threshold crossing that happens while
    [now - last_alerted_at < cooldown] posts nothing to the webhook; the
    counter is incremented all the same (the target is alerting) and
    [last_alerted_at] is not advanced; the alert is not sent later in the
    streak either. Hence a run of checks that stays within the cooldown
    window of the last stamp delivers nothing, and, the clock not running
    backwards, of two crossings less than a cooldown apart at most one is
    delivered. *)
Theorem crossing_in_cooldown_is_dropped :
  forall (env : Env) (db : gmap Z URL) (i : Z) (u : URL) (st : URLStatus)
         (last : Z),
    tracked db i u ->
    crossing self u st ->
    last_alerted_at u = Some last ->
    now_check env - last < cooldown self ->
    let r := process_status_for_alerts self env db i st in
    count (is_post Failure) r.2 = 0%nat
    /\ (exists u', tracked r.1 i u'
          /\ consecutive_failures u' = consecutive_failures u + 1
          /\ alerting self u' = true
          /\ last_alerted_at u' = Some last)
    /\ (forall checks, all_down checks ->
          count (is_post Failure) (run self r.1 i checks).2 = 0%nat)
    /\ (forall checks,
          Forall (fun c => now_check c.2 - last < cooldown self) checks ->
          count (is_post Failure) (run self db i checks).2 = 0%nat
          /\ exists u', (run self db i checks).1 !! i = Some u'
               /\ last_alerted_at u' = Some last)
    /\ (forall db0 env1 st1 between env2 st2,
          let first := process_status_for_alerts self env1 db0 i st1 in
          let second :=
            process_status_for_alerts self env2
              (run self first.1 i between).1 i st2 in
          count (is_delivered Failure) first.2 = 1%nat ->
          Forall (fun c => now_stamp env1 <= now_stamp c.2) between ->
          now_check env2 - now_stamp env1 < cooldown self ->
          count (is_post Failure) second.2 = 0%nat).
Proof.
  intros env db i u st last Ht [Hdown Hcf] Hlast Hcd r.
  destruct (step_in_cooldown env db i u st last Ht Hlast Hcd)
    as (Hp & u1 & Ht1 & Hlast1).
  destruct (down_step_row env db i u st Ht Hdown) as (u2 & Ht2 & Hc2).
  assert (u2 = u1) as -> by (destruct Ht1, Ht2; congruence).
  split; [done|]. split; [|split; [|split]].
  - exists u1. repeat split; try apply Ht1; try done.
    unfold alerting. apply Z.leb_le. lia.
  - intros checks Hall.
    destruct (streak_calls checks Hall r.1 i) as [_ Hzero].
    specialize (Hzero u1 Ht1). 
    pose proof (run_posts_le_calls checks r.1 i). lia.
  - intros checks Hall.
    destruct (run_in_cooldown checks last db i u Ht Hlast Hall)
      as (Hp' & u' & Ht' & Hlast').
    split; [done|]. exists u'. split; [apply Ht' | done].
  - intros db0 env1 st1 between env2 st2 first second Hdel Hmono Hnear.
    destruct (tracked_dec db0 i) as [[u0 Ht0]|Hno]; cycle 1.
    { subst first. by rewrite untracked_step in Hdel. }
    destruct (step_row env1 db0 i u0 st1 Ht0)
      as (u3 & Ht3 & [[_ Hnone]|[Hstamp _]]).
    { subst first. rewrite Hnone in Hdel. done. }
    destruct (run_stamp_ge between (now_stamp env1) first.1 i u3
                (now_stamp env1) Ht3 Hstamp ltac:(lia) Hmono)
      as (u4 & l4 & Ht4 & Hl4 & Hge).
    subst second.
    apply (step_in_cooldown env2 _ i u4 st2 l4 Ht4 Hl4). lia.
Qed.

Lemma step_no_recovery env db i st :
  (forall u, tracked db i u -> alerting self u = false) ->
  count (is_call Recovery) (process_status_for_alerts self env db i st).2
    = 0%nat
  /\ count (is_post Recovery) (process_status_for_alerts self env db i st).2
    = 0%nat.
Proof.
  intros Hquiet. destruct (tracked_dec db i) as [[u Ht]|Hno].
  - destruct (is_up st) eqn:Hup.
    + rewrite (up_step env db i u st Ht Hup). simpl.
      by rewrite (Hquiet u Ht).
    + rewrite (down_step env db i u st Ht Hup). simpl.
      destruct (consecutive_failures u + 1 =? failure_threshold self);
        simpl; [|done].
      unfold send_failure_alert.
      destruct (webhook_unset self); [done|].
      destruct (in_cooldown self env
        (set_consecutive_failures (consecutive_failures u + 1) u)); [done|].
      by destruct (post_ok env).
  - by rewrite untracked_step.
Qed.

(** C3, as the code has it. On an up outcome of a tracked target with
    [alert_recovery] set, a recovery alert is raised (and, the webhook
    being set, posted) exactly when [consecutive_failures] is at least the
    threshold, whatever the clock and [last_alerted_at] say, so also
    inside the cooldown. Every up outcome resets [consecutive_failures] to
    0, whether or not a recovery alert went out. With a threshold of at
    least 1 the reset ends the alerting state; with a threshold of 0 or
    less the row still counts as alerting after the reset. A target whose
    counter is below the threshold, and a target whose counter stays
    below it along a run, gets no recovery alert. *)
Theorem recovery_alert_iff_alerting :
  forall (env : Env) (db : gmap Z URL) (i : Z) (u : URL) (st : URLStatus),
    tracked db i u ->
    is_up st = true ->
    let r := process_status_for_alerts self env db i st in
    (alert_recovery u = true ->
       (count (is_call Recovery) r.2 = 1%nat <-> alerting self u = true)
       /\ (count (is_call Recovery) r.2 = 0%nat <-> alerting self u = false)
       /\ (webhook_unset self = false ->
           (count (is_post Recovery) r.2 = 1%nat <-> alerting self u = true)
           /\ (alerting self u = true -> in_cooldown self env u = true ->
               count (is_post Recovery) r.2 = 1%nat)))
    /\ (alerting self u = false ->
        count (is_call Recovery) r.2 = 0%nat
        /\ count (is_post Recovery) r.2 = 0%nat)
    /\ (exists u', tracked r.1 i u'
          /\ consecutive_failures u' = 0
          /\ last_alerted_at u' = last_alerted_at u
          /\ (0 < failure_threshold self -> alerting self u' = false)
          /\ (failure_threshold self <= 0 -> alerting self u' = true))
    /\ (forall checks, never_alerting self db i checks ->
          count (is_call Recovery) (run self db i checks).2 = 0%nat
          /\ count (is_post Recovery) (run self db i checks).2 = 0%nat).
Proof.
  intros env db i u st Ht Hup r. pose proof Ht as (Hu & Ha & Ho).
  subst r. rewrite (up_step env db i u st Ht Hup). simpl.
  split; [|split; [|split]].
  - intros Hrec. rewrite Hrec, andb_true_r.
    destruct (alerting self u) eqn:Hal; simpl.
    + assert (Hc : count (is_call Recovery)
                     (send_recovery_alert self env u).2 = 0%nat).
      { unfold send_recovery_alert.
        by destruct (webhook_unset self), (post_ok env). }
      rewrite Hc. split; [done|]. split; [done|].
      intros Hw. unfold send_recovery_alert. rewrite Hw.
      by destruct (post_ok env).
    + split; [done|]. split; [done|]. intros Hw. split; [done|]. done.
  - intros Hal. by rewrite Hal.
  - exists (set_consecutive_failures 0 u).
    split; [split; [apply lookup_insert_eq | done]|].
    split; [done|]. split; [done|]. split.
    + intros Hpos. unfold alerting. simpl. apply Z.leb_gt. lia.
    + intros Hneg. unfold alerting. simpl. apply Z.leb_le. lia.
  - induction checks as [|[st' env'] rest IH] in db |- *.
    { done. }
    intros [Hquiet Hrest]. rewrite run_cons. simpl. rewrite !count_app.
    destruct (step_no_recovery env' db i st' Hquiet) as [-> ->].
    by destruct (IH _ Hrest) as [-> ->].
Qed.

(** C4, as the code has it. When the threshold is crossed outside the
    cooldown (webhook set), the failure notification is posted and the
    incremented counter, hence the alerting state, is committed whether or
    not the delivery succeeds; a failed delivery is printed and the call
    returns normally. [last_alerted_at] is set to the clock only when the
    delivery succeeded; after a failed delivery it is what it was. *)
Theorem crossing_outside_cooldown_commits_counter :
  forall (env : Env) (db : gmap Z URL) (i : Z) (u : URL) (st : URLStatus),
    tracked db i u ->
    crossing self u st ->
    webhook_unset self = false ->
    in_cooldown self env u = false ->
    let r := process_status_for_alerts self env db i st in
    count (is_post Failure) r.2 = 1%nat
    /\ exists u', tracked r.1 i u'
         /\ consecutive_failures u' = failure_threshold self
         /\ alerting self u' = true
         /\ (post_ok env = true ->
             last_alerted_at u' = Some (now_stamp env)
             /\ count (is_delivered Failure) r.2 = 1%nat)
         /\ (post_ok env = false ->
             last_alerted_at u' = last_alerted_at u
             /\ count (is_delivered Failure) r.2 = 0%nat
             /\ In (Stdout ErrorSendingAlert) r.2).
Proof.
  intros env db i u st Ht [Hdown Hcf] Hw Hcd r. pose proof Ht as (Hu & Ha & Ho).
  subst r. rewrite (down_step env db i u st Ht Hdown). simpl.
  replace (consecutive_failures u + 1 =? failure_threshold self)
    with true by (symmetry; apply Z.eqb_eq; lia).
  unfold send_failure_alert. rewrite Hw.
  unfold in_cooldown in *. simpl. rewrite Hcd.
  destruct (post_ok env); simpl.
  - split; [done|]. eexists.
    split; [split; [apply lookup_insert_eq | done]|]. simpl.
    split; [lia|]. split; [unfold alerting; simpl; apply Z.leb_le; lia|].
    split; [done|]. done.
  - split; [done|]. eexists.
    split; [split; [apply lookup_insert_eq | done]|]. simpl.
    split; [lia|]. split; [unfold alerting; simpl; apply Z.leb_le; lia|].
    split; [done|]. intros _. split; [done|]. split; [done|].
    simpl. auto.
Qed.

End AlertFacts.

Section AlertWitnesses.

Import AlertManager Scenario.
Local Open Scope Z_scope.

(** Scenario 7 of the specification: down, down, down one minute apart,
    then up. The second failure alerts, the third does not, the up
    outcome sends the recovery and resets the counter. *)
Example scenario_streak :
  let r := run manager {[ 1 := healthy_target ]} 1
             [(down, webhook_accepts 0); (down, webhook_accepts 60000000);
              (down, webhook_accepts 120000000);
              (up, webhook_accepts 180000000)] in
  r.2 = [Call Failure 1; Post Failure 1 true; Stdout AlertSent;
         Call Recovery 1; Post Recovery 1 true; Stdout RecoverySent]
  /\ (consecutive_failures <$> r.1 !! 1) = Some 0
  /\ (last_alerted_at <$> r.1 !! 1) = Some (Some 60000000).
Proof. repeat split; reflexivity. Qed.

Lemma failure_alert_at_threshold_crossing_witness :
  tracked table 1 target
  /\ crossing manager target down
  /\ count (is_call Failure)
       (process_status_for_alerts manager (webhook_accepts 600000000)
          table 1 down).2 = 1%nat.
Proof.
  assert (Ht : tracked table 1 target) by (repeat split; reflexivity).
  assert (Hx : crossing manager target down) by (split; reflexivity).
  split; [exact Ht|]. split; [exact Hx|].
  destruct (failure_alert_at_threshold_crossing manager
              (webhook_accepts 600000000) table 1 target down Ht)
    as [Hiff _].
  apply Hiff. split; [exact Hx|].
  eexists. split; reflexivity.
Defined.

Lemma crossing_in_cooldown_is_dropped_witness :
  tracked alerted_table 1 alerted_target
  /\ crossing manager alerted_target down
  /\ last_alerted_at alerted_target = Some 300000000
  /\ 600000000 - 300000000 < cooldown manager
  /\ count (is_post Failure)
       (process_status_for_alerts manager (webhook_accepts 600000000)
          alerted_table 1 down).2 = 0%nat.
Proof.
  assert (Ht : tracked alerted_table 1 alerted_target)
    by (repeat split; reflexivity).
  assert (Hx : crossing manager alerted_target down) by (split; reflexivity).
  assert (Hcd : now_check (webhook_accepts 600000000) - 300000000
                < cooldown manager) by reflexivity.
  split; [exact Ht|]. split; [exact Hx|]. split; [reflexivity|].
  split; [exact Hcd|].
  exact (proj1 (crossing_in_cooldown_is_dropped manager
                  (webhook_accepts 600000000) alerted_table 1
                  alerted_target down 300000000 Ht Hx eq_refl Hcd)).
Defined.

Lemma recovery_alert_iff_alerting_witness :
  tracked alerting_table 1 alerting_target
  /\ is_up up = true
  /\ count (is_call Recovery)
       (process_status_for_alerts manager (webhook_accepts 600000000)
          alerting_table 1 up).2 = 1%nat.
Proof.
  assert (Ht : tracked alerting_table 1 alerting_target)
    by (repeat split; reflexivity).
  split; [exact Ht|]. split; [reflexivity|].
  destruct (recovery_alert_iff_alerting manager (webhook_accepts 600000000)
              alerting_table 1 alerting_target up Ht eq_refl)
    as [Hrec _].
  destruct (Hrec eq_refl) as [Hiff _]. apply Hiff. reflexivity.
Defined.

(** C3 as stated does not hold for a threshold of 0: a row that never
    failed gets a recovery alert on an up outcome, on every up outcome of
    a run, and it still counts as alerting after the counter was reset. *)
Lemma zero_threshold_recovers_a_target_that_never_failed :
  let db : gmap Z URL := {[ 1 := healthy_target ]} in
  let r := process_status_for_alerts zero_threshold_manager
             (webhook_accepts 0) db 1 up in
  tracked db 1 healthy_target
  /\ alert_recovery healthy_target = true
  /\ consecutive_failures healthy_target = 0
  /\ r.2 = [Call Recovery 1; Post Recovery 1 true; Stdout RecoverySent]
  /\ (exists u', tracked r.1 1 u'
         /\ consecutive_failures u' = 0
         /\ alerting zero_threshold_manager u' = true)
  /\ count (is_post Recovery)
        (run zero_threshold_manager db 1
           [(up, webhook_accepts 0); (up, webhook_accepts 60000000)]).2
      = 2%nat.
Proof.
  cbv zeta. split; [by repeat split|]. split; [reflexivity|].
  split; [reflexivity|]. split; [reflexivity|]. split; [|reflexivity].
  exists (set_consecutive_failures 0 healthy_target).
  split; [|split; reflexivity]. by repeat split.
Qed.

Lemma crossing_outside_cooldown_commits_counter_witness :
  tracked table 1 target
  /\ crossing manager target down
  /\ webhook_unset manager = false
  /\ in_cooldown manager (webhook_refuses 600000000) target = false
  /\ count (is_post Failure)
       (process_status_for_alerts manager (webhook_refuses 600000000)
          table 1 down).2 = 1%nat.
Proof.
  assert (Ht : tracked table 1 target) by (repeat split; reflexivity).
  assert (Hx : crossing manager target down) by (split; reflexivity).
  split; [exact Ht|]. split; [exact Hx|]. split; [reflexivity|].
  split; [reflexivity|].
  exact (proj1 (crossing_outside_cooldown_commits_counter manager
                  (webhook_refuses 600000000) table 1 target down
                  Ht Hx eq_refl eq_refl)).
Defined.

(** C4 as stated does not hold: the threshold is crossed outside the
    cooldown, the webhook refuses the post, and [last_alerted_at] is not
    set to the clock: the row keeps the incremented counter and no
    stamp. *)
Lemma failed_delivery_leaves_last_alerted_at :
  let env := webhook_refuses 600000000 in
  let r := process_status_for_alerts manager env table 1 down in
  tracked table 1 target
  /\ crossing manager target down
  /\ webhook_unset manager = false
  /\ in_cooldown manager env target = false
  /\ post_ok env = false
  /\ r.1 !! 1 = Some (set_consecutive_failures 2 target)
  /\ r.2 = [Call Failure 1; Post Failure 1 false; Stdout ErrorSendingAlert]
  /\ ~ (exists u', r.1 !! 1 = Some u'
                 /\ last_alerted_at u' = Some (now_stamp env)).
Proof.
  simpl. repeat split; try reflexivity.
  intros (u' & Hu' & Hstamp).
  assert (Hrow : process_status_for_alerts manager
                   (webhook_refuses 600000000) table 1 down
                 = (<[1 := set_consecutive_failures 2 target]> table,
                    [Call Failure 1; Post Failure 1 false;
                     Stdout ErrorSendingAlert])) by reflexivity.
  rewrite Hrow in Hu'. simpl in Hu'. rewrite lookup_insert_eq in Hu'.
  injection Hu' as <-. discriminate Hstamp.
Qed.

End AlertWitnesses.

(** ** The probe *)

Section ProbeFacts.

Import NetworkMonitor Scenario.
Local Open Scope Z_scope.

Lemma check_url_get_made env m url_id url :
  get_made env ->
  exists m1,
    check_url env m url_id url =
      match get env with
      | inr (code, elapsed) =>
          let st := mkURLStatus url_id code elapsed (code <? 400) None in
          (db_add_status st m1, st)
      | inl e =>
          let st := mkURLStatus url_id 0 0 false (Some e) in
          (db_add_status st m1, st)
      end.
Proof.
  intros Hmade. unfold check_url.
  destruct (capture_thread_raises env) as [e1|] eqn:H1.
  - destruct Hmade as [?|H2]; [congruence|]. rewrite H2.
    eexists. by destruct (get env) as [e|[code elapsed]].
  - eexists. by destruct (get env) as [e|[code elapsed]].
Qed.

Lemma db_add_status_last st m :
  url_statuses (db_add_status st m) = url_statuses m ++ [st].
Proof. done. Qed.


(** C6, as the code has it. For a probe that receives a response, the
    recorded [is_up] is true exactly when the status code is below 400:
    codes in [200,400) are up, 4xx/5xx are down, and a code below 200
    is up as well. *)
Theorem response_is_up_iff_below_400 :
  forall (env : ProbeEnv) (m : t) (url_id : Z) (url : string)
         (code elapsed : Z),
    get_made env ->
    get env = inr (code, elapsed) ->
    let r := check_url env m url_id url in
    status_code r.2 = code
    /\ error_message r.2 = None
    /\ (is_up r.2 = true <-> code < 400)
    /\ (200 <= code < 400 -> is_up r.2 = true)
    /\ (400 <= code -> is_up r.2 = false)
    /\ (code < 200 -> is_up r.2 = true)
    /\ last (url_statuses r.1) = Some r.2.
Proof.
  intros env m url_id url code elapsed Hmade Hget r.
  destruct (check_url_get_made env m url_id url Hmade) as (m1 & Hr).
  subst r. rewrite Hr, Hget. simpl.
  split; [done|]. split; [done|]. split; [apply Z.ltb_lt|].
  split; [intros ?; apply Z.ltb_lt; lia|].
  split; [intros ?; apply Z.ltb_ge; lia|].
  split; [intros ?; apply Z.ltb_lt; lia|].
  by rewrite last_snoc.
Qed.

End ProbeFacts.

Section ProbeWitnesses.

Import NetworkMonitor Scenario.
Local Open Scope Z_scope.



Lemma response_is_up_iff_below_400_witness :
  get_made (probe_answers 301 120000)
  /\ is_up (check_url (probe_answers 301 120000) fresh_monitor 1
             "https://example.com").2 = true.
Proof.
  assert (Hmade : get_made (probe_answers 301 120000))
    by (left; reflexivity).
  split; [exact Hmade|].
  destruct (response_is_up_iff_below_400 (probe_answers 301 120000)
              fresh_monitor 1 "https://example.com" 301 120000
              Hmade eq_refl)
    as (_ & _ & _ & Hup & _).
  apply Hup. lia.
Defined.

(** C6 as stated does not hold: the server answers [103 Early Hints],
    a response with a status code below 200, and the outcome is recorded
    as up although 103 is not in [200,400). *)
Lemma informational_status_is_up :
  let r := check_url (probe_answers 103 120000) fresh_monitor 1
             "https://example.com" in
  get_made (probe_answers 103 120000)
  /\ status_code r.2 = 103
  /\ is_up r.2 = true
  /\ ~ (200 <= status_code r.2 < 400)
  /\ ~ (is_up r.2 = true <-> 200 <= status_code r.2 < 400).
Proof.
  simpl. split; [by left|]. split; [done|]. split; [done|].
  split; [lia|]. intros [Hup _]. specialize (Hup eq_refl). lia.
Qed.

End ProbeWitnesses.

(** ** The resource-type guesser *)

Section GuessFacts.

Import NetworkMonitor.

Lemma contains_nonempty needle s :
  PyStr.truthy needle = true -> PyStr.contains needle s = true ->
  PyStr.truthy s = true.
Proof. by destruct needle, s. Qed.

(** The answer the URL extension alone gives (lines 301-311). *)
Lemma guess_without_content_type url content_type :
  PyStr.contains "javascript" content_type = false ->
  PyStr.contains "css" content_type = false ->
  PyStr.contains "image/" content_type = false ->
  PyStr.contains "html" content_type = false ->
  _guess_resource_type url content_type
  = _guess_resource_type url EmptyString.
Proof.
  intros Hjs Hcss Himg Hhtml. unfold _guess_resource_type.
  rewrite Hjs, Hcss, Himg, Hhtml. by destruct (PyStr.truthy content_type).
Qed.

(** C10. [_guess_resource_type] returns, for every URL and content
    type, one of JavaScript, Stylesheet, Image, HTML and Other, never
    Unknown. The content type decides first, in the order javascript,
    css, image/, html, whatever the URL is; only when it names none of
    them does the extension of the lower-cased URL decide, where .webp
    is an image like .jpg, .jpeg, .png and .gif; Other is the answer
    when nothing matches. *)
Theorem guess_resource_type_never_unknown :
  forall (url content_type : string),
    let r := _guess_resource_type url content_type in
    let ext := PyStr.endswith (PyStr.lower url) in
    (r = "JavaScript" \/ r = "Stylesheet" \/ r = "Image" \/ r = "HTML"
     \/ r = "Other")
    /\ r <> "Unknown"
    /\ (PyStr.contains "javascript" content_type = true -> r = "JavaScript")
    /\ (PyStr.contains "javascript" content_type = false ->
        PyStr.contains "css" content_type = true -> r = "Stylesheet")
    /\ (PyStr.contains "javascript" content_type = false ->
        PyStr.contains "css" content_type = false ->
        PyStr.contains "image/" content_type = true -> r = "Image")
    /\ (PyStr.contains "javascript" content_type = false ->
        PyStr.contains "css" content_type = false ->
        PyStr.contains "image/" content_type = false ->
        PyStr.contains "html" content_type = true -> r = "HTML")
    /\ (PyStr.contains "javascript" content_type = false ->
        PyStr.contains "css" content_type = false ->
        PyStr.contains "image/" content_type = false ->
        PyStr.contains "html" content_type = false ->
        (ext ".webp" = true -> r = "Image")
        /\ (ext ".jpg" = true \/ ext ".jpeg" = true \/ ext ".png" = true
            \/ ext ".gif" = true -> r = "Image")
        /\ (PyStr.endswith_any (PyStr.lower url)
              [".jpg"; ".jpeg"; ".png"; ".gif"; ".webp"] = false ->
            (ext ".css" = true -> r = "Stylesheet")
            /\ (ext ".css" = false -> ext ".js" = true -> r = "JavaScript")
            /\ (ext ".css" = false -> ext ".js" = false ->
                (ext ".html" = true \/ ext ".htm" = true -> r = "HTML")
                /\ (ext ".html" = false -> ext ".htm" = false ->
                    r = "Other")))).
Proof.
  intros url content_type r ext.
  assert (Hrange : r = "JavaScript" \/ r = "Stylesheet" \/ r = "Image"
                   \/ r = "HTML" \/ r = "Other").
  { subst r. unfold _guess_resource_type.
    repeat match goal with
           | |- context [if ?b then _ else _] => destruct b
           end; auto 10. }
  split; [exact Hrange|]. split.
  { destruct Hrange as [->|[->|[->|[->| ->]]]]; discriminate. }
  split; [|split; [|split; [|split]]].
  - intros Hjs. subst r. unfold _guess_resource_type.
    rewrite (contains_nonempty "javascript" content_type eq_refl Hjs).
    by rewrite Hjs.
  - intros Hjs Hcss. subst r. unfold _guess_resource_type.
    rewrite (contains_nonempty "css" content_type eq_refl Hcss).
    by rewrite Hjs, Hcss.
  - intros Hjs Hcss Himg. subst r. unfold _guess_resource_type.
    rewrite (contains_nonempty "image/" content_type eq_refl Himg).
    by rewrite Hjs, Hcss, Himg.
  - intros Hjs Hcss Himg Hhtml. subst r. unfold _guess_resource_type.
    rewrite (contains_nonempty "html" content_type eq_refl Hhtml).
    by rewrite Hjs, Hcss, Himg, Hhtml.
  - intros Hjs Hcss Himg Hhtml. subst r.
    rewrite (guess_without_content_type url content_type Hjs Hcss Himg Hhtml).
    unfold _guess_resource_type, PyStr.endswith_any. subst ext.
    cbn [PyStr.truthy existsb].
    destruct (PyStr.endswith (PyStr.lower url) ".jpg") eqn:Hjpg,
             (PyStr.endswith (PyStr.lower url) ".jpeg") eqn:Hjpeg,
             (PyStr.endswith (PyStr.lower url) ".png") eqn:Hpng,
             (PyStr.endswith (PyStr.lower url) ".gif") eqn:Hgif,
             (PyStr.endswith (PyStr.lower url) ".webp") eqn:Hwebp;
      cbn [orb];
      try (split; [done|]; split; [done|]; intros; discriminate).
    split; [done|]. split; [intros [?|[?|[?|?]]]; discriminate|].
    intros _.
    destruct (PyStr.endswith (PyStr.lower url) ".css") eqn:Hc.
    { split; [done|]. split; intros; discriminate. }
    split; [done|].
    destruct (PyStr.endswith (PyStr.lower url) ".js") eqn:Hj.
    { split; [done|]. intros; discriminate. }
    split; [done|]. intros _ _.
    destruct (PyStr.endswith (PyStr.lower url) ".html") eqn:Hh,
             (PyStr.endswith (PyStr.lower url) ".htm") eqn:Hm; cbn [orb];
      split; try done; intros; try discriminate.
    destruct H; discriminate.
Qed.

Example guess_webp :
  _guess_resource_type "https://example.com/Logo.WEBP" EmptyString = "Image".
Proof. reflexivity. Qed.

Example guess_content_type_first :
  _guess_resource_type "https://example.com/style.png" "text/css; charset=utf-8"
    = "Stylesheet".
Proof. reflexivity. Qed.

Example guess_other :
  _guess_resource_type "https://example.com/data.json" "application/json"
    = "Other".
Proof. reflexivity. Qed.

End GuessFacts.


(** ** The scheduler *)

Section SchedulerFacts.

Import NetworkMonitor.
Local Open Scope Z_scope.

(** A check records one outcome for its target and leaves the scheduler
    alone. *)
Lemma check_url_frame env m i url :
  let r := check_url env m i url in
  scheduler r.1 = scheduler m
  /\ next_job r.1 = next_job m
  /\ jobs r.1 = jobs m
  /\ url_statuses r.1 = url_statuses m ++ [r.2]
  /\ url_id r.2 = i.
Proof.
  unfold check_url.
  destruct (capture_thread_raises env), (fallback_thread_raises env),
    (get env) as [?|[code elapsed]]; simpl; done.
Qed.

(** [start_monitoring], field by field. *)
Lemma start_monitoring_fields env m u :
  let m' := start_monitoring env m u in
  let kept :=
    match jobs m !! id u with
    | Some old => delete old (scheduler m)
    | None => scheduler m
    end in
  scheduler m' = <[next_job m := mkJob (check_frequency u) (id u, url u)]> kept
  /\ next_job m' = S (next_job m)
  /\ jobs m' = <[id u := next_job m]> (jobs m)
  /\ exists st, url_statuses m' = url_statuses m ++ [st] /\ url_id st = id u.
Proof.
  unfold start_monitoring.
  match goal with
  | |- context [check_url env ?m2 ?i ?a] =>
      destruct (check_url_frame env m2 i a) as (Hs & Hn & Hj & Hst & Hid)
  end.
  simpl. rewrite Hs, Hn, Hj, Hst.
  destruct (jobs m !! id u) as [old|]; simpl; repeat split; eauto.
Qed.

(** The check [start_monitoring] makes before it returns, in terms of
    what the network did: the outcome appended to the history and the
    discovery thread started, both for the row's id and URL. *)
Lemma start_monitoring_probe env m u :
  let m' := start_monitoring env m u in
  (forall code elapsed, get_made env -> get env = inr (code, elapsed) ->
     url_statuses m'
     = url_statuses m
       ++ [mkURLStatus (id u) code elapsed (code <? 400) None])
  /\ (forall e, get_made env -> get env = inl e ->
        url_statuses m'
        = url_statuses m ++ [mkURLStatus (id u) 0 0 false (Some e)])
  /\ (forall e, ~ get_made env -> fallback_thread_raises env = Some e ->
        url_statuses m'
        = url_statuses m ++ [mkURLStatus (id u) 0 0 false (Some e)])
  /\ (capture_thread_raises env = None ->
        threads m' = threads m ++ [CaptureThread (id u) (url u)])
  /\ (capture_thread_raises env <> None ->
        fallback_thread_raises env = None ->
        threads m' = threads m ++ [FallbackThread (id u) (url u)]).
Proof.
  unfold start_monitoring, check_url, get_made.
  destruct (jobs m !! id u) as [old|];
    destruct (capture_thread_raises env) as [e1|],
      (fallback_thread_raises env) as [e2|],
      (get env) as [e3|[code' elapsed']]; simpl;
    (split; [|split; [|split; [|split]]]); intros;
    try done; try congruence; try tauto;
    repeat match goal with
           | H : _ \/ _ |- _ => destruct H; try discriminate
           end;
    try congruence.
Qed.

(** C8. On a monitor whose dict and job store agree, [start_monitoring]
    is a replace: afterwards the dict maps the target to one job, a new
    interval job with [seconds = check_frequency] for this target, and the
    store holds no other job for the target; a job the target had before
    is gone from the store, which then keeps its size (and grows by one
    otherwise); other targets keep their jobs. Before the call returns
    the row's URL has been checked once: one discovery thread was started
    for it and one outcome for the target was appended to the history,
    the status code and latency of the response with [is_up] set for a
    code below 400, or the failure outcome carrying the text of the
    exception. Calling it again changes neither the number of jobs nor
    the set of scheduled targets. *)
Theorem start_monitoring_replaces_job :
  forall (env : ProbeEnv) (m : t) (u : URL),
    consistent m ->
    let m' := start_monitoring env m u in
    consistent m'
    /\ (exists j,
          jobs m' !! id u = Some j
          /\ scheduler m' !! j
             = Some (mkJob (check_frequency u) (id u, url u))
          /\ forall j' jb, scheduler m' !! j' = Some jb ->
               (args jb).1 = id u -> j' = j)
    /\ (forall old, jobs m !! id u = Some old ->
          scheduler m' !! old = None
          /\ size (scheduler m') = size (scheduler m))
    /\ (jobs m !! id u = None ->
          size (scheduler m') = S (size (scheduler m)))
    /\ (forall i, i <> id u -> jobs m' !! i = jobs m !! i)
    /\ (exists st, url_statuses m' = url_statuses m ++ [st]
                   /\ url_id st = id u)
    /\ ((forall code elapsed,
           get_made env -> get env = inr (code, elapsed) ->
           url_statuses m'
           = url_statuses m
             ++ [mkURLStatus (id u) code elapsed (code <? 400) None])
        /\ (forall e, get_made env -> get env = inl e ->
              url_statuses m'
              = url_statuses m ++ [mkURLStatus (id u) 0 0 false (Some e)])
        /\ (forall e, ~ get_made env ->
              fallback_thread_raises env = Some e ->
              url_statuses m'
              = url_statuses m ++ [mkURLStatus (id u) 0 0 false (Some e)])
        /\ (capture_thread_raises env = None ->
              threads m' = threads m ++ [CaptureThread (id u) (url u)])
        /\ (capture_thread_raises env <> None ->
              fallback_thread_raises env = None ->
              threads m' = threads m ++ [FallbackThread (id u) (url u)]))
    /\ (let m'' := start_monitoring env m' u in
        size (scheduler m'') = size (scheduler m')
        /\ dom (jobs m'') = dom (jobs m')).
Proof.
  intros env m u (Hdict & Hstore & Hfresh) m'.
  destruct (start_monitoring_fields env m u) as (Hs & Hn & Hj & Hst).
  fold m' in Hs, Hn, Hj, Hst.
  set (kept := match jobs m !! id u with
               | Some old => delete old (scheduler m)
               | None => scheduler m
               end) in *.
  assert (Hnew : scheduler m !! next_job m = None).
  { destruct (scheduler m !! next_job m) eqn:Hl; [|done].
    assert (next_job m < next_job m)%nat by (apply Hfresh; eauto). lia. }
  assert (Hkept_new : kept !! next_job m = None).
  { subst kept. destruct (jobs m !! id u) as [old|]; [|done].
    destruct (decide (old = next_job m)) as [->|Hne].
    - apply lookup_delete_eq.
    - by rewrite lookup_delete_ne. }
  assert (Hkept : forall j jb, kept !! j = Some jb ->
            scheduler m !! j = Some jb /\ (args jb).1 <> id u).
  { subst kept. intros j jb Hl.
    destruct (jobs m !! id u) as [old|] eqn:Hold.
    - destruct (decide (old = j)) as [->|Hne].
      + by rewrite lookup_delete_eq in Hl.
      + rewrite lookup_delete_ne in Hl by done. split; [done|].
        intros Heq. apply Hstore in Hl. rewrite Heq in Hl. congruence.
    - split; [done|]. intros Heq. apply Hstore in Hl.
      rewrite Heq in Hl. congruence. }
  assert (Hcons : consistent m').
  { split; [|split].
    - intros i j. rewrite Hj, Hs. intros Hl.
      destruct (decide (id u = i)) as [<-|Hne].
      + rewrite lookup_insert_eq in Hl. injection Hl as <-.
        rewrite lookup_insert_eq. eauto.
      + rewrite lookup_insert_ne in Hl by done.
        destruct (Hdict i j Hl) as (jb & Hjb & Harg).
        exists jb. split; [|done].
        assert (j <> next_job m).
        { intros ->. congruence. }
        rewrite lookup_insert_ne by done.
        subst kept. destruct (jobs m !! id u) as [old|] eqn:Hold; [|done].
        rewrite lookup_delete_ne; [done|].
        intros ->. destruct (Hdict _ _ Hold) as (jb' & Hjb' & Harg').
        congruence.
    - intros j jb. rewrite Hj, Hs. intros Hl.
      destruct (decide (next_job m = j)) as [<-|Hne].
      + rewrite lookup_insert_eq in Hl. injection Hl as <-. simpl.
        apply lookup_insert_eq.
      + rewrite lookup_insert_ne in Hl by done.
        destruct (Hkept j jb Hl) as [Hjb Harg].
        rewrite lookup_insert_ne by done. by apply Hstore.
    - intros j. rewrite Hs, Hn. intros [jb Hl].
      destruct (decide (next_job m = j)) as [<-|Hne]; [lia|].
      rewrite lookup_insert_ne in Hl by done.
      destruct (Hkept j jb Hl) as [Hjb _].
      assert (j < next_job m)%nat by (apply Hfresh; eauto). lia. }
  assert (Hsize : forall m0 : t, consistent m0 -> forall old,
            jobs m0 !! id u = Some old ->
            size (scheduler (start_monitoring env m0 u)) = size (scheduler m0)).
  { intros m0 (Hd0 & Hs0 & Hf0) old Hold.
    destruct (start_monitoring_fields env m0 u) as (-> & _).
    rewrite Hold.
    destruct (Hd0 _ _ Hold) as (jb & Hjb & _).
    assert (old <> next_job m0).
    { intros ->. assert (next_job m0 < next_job m0)%nat
        by (apply Hf0; eauto). lia. }
    rewrite map_size_insert_None.
    - pose proof (map_size_delete_Some old (scheduler m0)
                    (mk_is_Some _ _ Hjb)).
      destruct (size (scheduler m0)) eqn:Hz; [|lia].
      apply map_size_empty_inv in Hz. rewrite Hz in Hjb. done.
    - rewrite lookup_delete_ne by done.
      destruct (scheduler m0 !! next_job m0) eqn:Hl; [|done].
      assert (next_job m0 < next_job m0)%nat by (apply Hf0; eauto). lia. }
  split; [exact Hcons|].
  split; [|split; [|split; [|split; [|split; [|split]]]]].
  - exists (next_job m). rewrite Hj, Hs, !lookup_insert_eq.
    split; [done|]. split; [done|].
    intros j' jb Hl Harg.
    destruct (decide (next_job m = j')) as [<-|Hne]; [done|].
    rewrite lookup_insert_ne in Hl by done.
    by destruct (Hkept j' jb Hl).
  - intros old Hold. split; [|by apply (Hsize m) with old].
    rewrite Hs. destruct (Hdict _ _ Hold) as (jb & Hjb & _).
    assert (old <> next_job m) by (intros ->; congruence).
    rewrite lookup_insert_ne by done.
    subst kept. rewrite Hold. apply lookup_delete_eq.
  - intros Hnone. rewrite Hs. subst kept. rewrite Hnone.
    by apply map_size_insert_None.
  - intros i Hne. rewrite Hj. by rewrite lookup_insert_ne.
  - exact Hst.
  - exact (start_monitoring_probe env m u).
  - simpl. split.
    + apply (Hsize m' Hcons (next_job m)). rewrite Hj. apply lookup_insert_eq.
    + destruct (start_monitoring_fields env m' u) as (_ & _ & -> & _).
      rewrite dom_insert_L, Hj, dom_insert_L.
      by rewrite (assoc_L (∪)), (idemp_L (∪)).
Qed.

End SchedulerFacts.

Section SchedulerWitnesses.

Import NetworkMonitor Scenario.
Local Open Scope Z_scope.

Lemma start_monitoring_replaces_job_witness :
  let m' := start_monitoring server_up scheduled_monitor faster_target in
  consistent scheduled_monitor
  /\ jobs scheduled_monitor !! 1 = Some 0%nat
  /\ scheduler scheduled_monitor !! 0%nat
     = Some (mkJob 60 (1, "https://example.com"))
  /\ scheduler m' !! 0%nat = None
  /\ (exists j, jobs m' !! 1 = Some j
        /\ scheduler m' !! j = Some (mkJob 30 (1, "https://example.com")))
  /\ size (scheduler m') = size (scheduler scheduled_monitor)
  /\ url_statuses m'
     = url_statuses scheduled_monitor ++ [mkURLStatus 1 200 120000 true None].
Proof.
  assert (Hc0 : consistent fresh_monitor).
  { split; [|split].
    - intros i j Hl. cbn in Hl. by rewrite lookup_empty in Hl.
    - intros j jb Hl. cbn in Hl. by rewrite lookup_empty in Hl.
    - intros j [jb Hl]. cbn in Hl. by rewrite lookup_empty in Hl. }
  assert (Hc : consistent scheduled_monitor)
    by exact (proj1 (start_monitoring_replaces_job server_up fresh_monitor
                       target Hc0)).
  assert (Hold : jobs scheduled_monitor !! id faster_target = Some 0%nat)
    by reflexivity.
  assert (Hmade : get_made server_up) by (left; reflexivity).
  destruct (start_monitoring_replaces_job server_up scheduled_monitor
              faster_target Hc)
    as (_ & (j & Hj & Hjob & _) & Hgone & _ & _ & _ & (Hresp & _) & _).
  cbv zeta.
  split; [exact Hc|]. split; [exact Hold|]. split; [reflexivity|].
  split; [exact (proj1 (Hgone _ Hold))|].
  split; [exists j; split; [exact Hj | exact Hjob]|].
  split; [exact (proj2 (Hgone _ Hold))|].
  exact (Hresp 200 120000 Hmade eq_refl).
Defined.

Example first_schedule_of_target :
  let m := start_monitoring (probe_answers 200 120000) fresh_monitor target in
  jobs m !! 1 = Some 0%nat
  /\ scheduler m !! 0%nat = Some (mkJob 60 (1, "https://example.com"))
  /\ url_statuses m = [mkURLStatus 1 200 120000 true None].
Proof. repeat split; reflexivity. Qed.

End SchedulerWitnesses.


(** ** Resource discovery *)

Section DiscoveryFacts.

Import NetworkMonitor Scenario.
Local Open Scope Z_scope.

(** A record whose pair is among the committed rows is not inserted
    again. *)
Lemma add_if_new_skips_recorded req m :
  _url_exists_for_monitor m (parent_id req) (target_url req) = true ->
  add_if_new req m = m.
Proof. intros Hex. unfold add_if_new. by rewrite Hex. Qed.

(** C7 fails on the code. One discovery pass over a page that refers to
    the same image twice records the image twice for the target: the
    existence test queries the committed rows, and the rows of the pass
    are committed only after its loop. The capture branch does the same
    with two packets that carry no request line. *)
Theorem repeated_resource_is_recorded_twice :
  let image :=
    mkSubsequentRequest 1 logo "93.184.216.34" "Image" "Stateless" "TCP" in
  let unknown :=
    mkSubsequentRequest 1 "Unknown" "Unknown" "Unknown" "Unknown" "Unknown" in
  let by_fallback :=
    capture_subsequent_requests page_with_repeated_logo fresh_monitor 1
      "https://example.com" in
  let by_capture :=
    capture_subsequent_requests capture_of_two_packets fresh_monitor 1
      "https://example.com" in
  subsequent_requests by_fallback = [image; image]
  /\ subsequent_requests by_capture = [unknown; unknown]
  /\ ~ NoDup (map (fun r => (parent_id r, target_url r))
                  (subsequent_requests by_fallback))
  /\ ~ NoDup (map (fun r => (parent_id r, target_url r))
                  (subsequent_requests by_capture)).
Proof.
  simpl. split; [reflexivity|]. split; [reflexivity|].
  split; intros Hnd; apply NoDup_cons in Hnd as [Hnotin _]; apply Hnotin;
    vm_compute; left.
Qed.

(** The last-resort placeholder of lines 438-449 is inserted without the
    existence test. *)
Example last_resort_placeholder_is_not_checked :
  subsequent_requests
    (capture_subsequent_requests nothing_works monitor_with_placeholder 1
       "https://example.com")
  = [placeholder 1 "https://example.com" "Could not determine";
     placeholder 1 "https://example.com" "Could not determine"].
Proof. reflexivity. Qed.

End DiscoveryFacts.

(** ** Which targets hold a job *)

Section AppFacts.

Import NetworkMonitor Scenario.
Local Open Scope Z_scope.

(** C9 fails on the code. A recurring target that is paused and resumed
    through [update_url] is active and not one-time, yet holds no job,
    because [update_frequency] does nothing for a target without a job;
    only the next start of the process schedules it. And a one-time target
    whose [is_active] was set through [update_url] is entered into the job
    mapping by the start-up block, which selects on [is_active] alone. *)
Theorem resumed_target_is_not_scheduled :
  let added := (App.add_url server_up server_up fresh_app add_recurring).1 in
  let paused := (App.update_url server_up added 1 pause).1 in
  let resumed := (App.update_url server_up paused 1 resume).1 in
  let checked := (App.add_url server_up server_up fresh_app add_one_time).1 in
  let activated := (App.update_url server_up checked 1 resume).1 in
  let restarted := App.main server_up activated in
  App.scheduled added 1 = true
  /\ App.scheduled paused 1 = false
  /\ (is_active <$> App.urls resumed !! 1) = Some true
  /\ (is_one_time <$> App.urls resumed !! 1) = Some false
  /\ App.scheduled resumed 1 = false
  /\ App.scheduled (App.main server_up resumed) 1 = true
  /\ App.scheduled checked 1 = false
  /\ App.scheduled activated 1 = false
  /\ (is_one_time <$> App.urls restarted !! 1) = Some true
  /\ App.scheduled restarted 1 = true.
Proof. vm_compute. repeat split; reflexivity. Qed.

End AppFacts.


(** ** More on the alert tracker *)

Section AlertTracker.

Import AlertManager.
Local Open Scope Z_scope.

Variable self : AlertManager.t.

(** Every call leaves the rows of the other targets alone and keeps the
    row of its own target, changing at most the two alert columns. *)
Lemma step_frame env db i st :
  let r := process_status_for_alerts self env db i st in
  (forall j, j <> i -> r.1 !! j = db !! j)
  /\ (forall u, db !! i = Some u ->
        exists u', r.1 !! i = Some u'
          /\ id u' = id u /\ url u' = url u /\ name u' = name u
          /\ is_active u' = is_active u
          /\ check_frequency u' = check_frequency u
          /\ is_one_time u' = is_one_time u
          /\ alert_enabled u' = alert_enabled u
          /\ alert_recovery u' = alert_recovery u).
Proof.
  destruct (tracked_dec db i) as [[u Ht]|Hno].
  - pose proof Ht as (Hu & Ha & Ho).
    assert (Hrow : exists u',
              (process_status_for_alerts self env db i st).1 = <[i := u']> db
              /\ id u' = id u /\ url u' = url u /\ name u' = name u
              /\ is_active u' = is_active u
              /\ check_frequency u' = check_frequency u
              /\ is_one_time u' = is_one_time u
              /\ alert_enabled u' = alert_enabled u
              /\ alert_recovery u' = alert_recovery u).
    { destruct (is_up st) eqn:Hup.
      - rewrite (up_step self env db i u st Ht Hup). simpl.
        eexists. split; [reflexivity|]. done.
      - rewrite (down_step self env db i u st Ht Hup). simpl.
        destruct (consecutive_failures u + 1 =? failure_threshold self);
          simpl; (eexists; split; [reflexivity|]); [|done].
        unfold send_failure_alert.
        destruct (webhook_unset self); [done|].
        destruct (in_cooldown self env _); [done|].
        by destruct (post_ok env). }
    destruct Hrow as (u' & Hr & Hsame). simpl. rewrite Hr. split.
    + intros j Hne. by rewrite lookup_insert_ne.
    + intros u0 Hu0. assert (u0 = u) as -> by congruence.
      exists u'. split; [apply lookup_insert_eq | exact Hsame].
  - simpl. rewrite (untracked_step self env db i st Hno). simpl.
    split; [done|]. intros u Hu. exists u. done.
Qed.

(** X1. A target whose row is missing, whose alerts are disabled or that
    is a one-time check is ignored: the table is left as it is and nothing
    is sent or printed (the guard of line 24). *)
Theorem untracked_target_is_ignored :
  forall (env : Env) (db : gmap Z URL) (i : Z) (st : URLStatus),
    (db !! i = None
     \/ exists u, db !! i = Some u
          /\ (alert_enabled u = false \/ is_one_time u = true)) ->
    process_status_for_alerts self env db i st = (db, []).
Proof.
  intros env db i st Hguard. apply untracked_step.
  intros u (Hu & Ha & Ho).
  destruct Hguard as [Hnone|(u0 & Hu0 & [Hdis|Hone])]; congruence.
Qed.

(** X2. Whatever the outcome, a call touches no row but the target's,
    creates and deletes no row, and on the target's row keeps [id],
    [url], [name], [is_active], [check_frequency], [is_one_time],
    [alert_enabled] and [alert_recovery]. *)
Theorem process_status_keeps_identity_and_settings :
  forall (env : Env) (db : gmap Z URL) (i : Z) (st : URLStatus),
    let r := process_status_for_alerts self env db i st in
    (forall j, j <> i -> r.1 !! j = db !! j)
    /\ dom r.1 = dom db
    /\ (forall u, db !! i = Some u ->
          exists u', r.1 !! i = Some u'
            /\ id u' = id u /\ url u' = url u /\ name u' = name u
            /\ is_active u' = is_active u
            /\ check_frequency u' = check_frequency u
            /\ is_one_time u' = is_one_time u
            /\ alert_enabled u' = alert_enabled u
            /\ alert_recovery u' = alert_recovery u).
Proof.
  intros env db i st r. destruct (step_frame env db i st) as [Hother Hrow].
  fold r in Hother, Hrow. split; [exact Hother|]. split; [|exact Hrow].
  apply set_eq. intros j. rewrite !elem_of_dom.
  destruct (decide (j = i)) as [->|Hne].
  - destruct (db !! i) as [u|] eqn:Hu.
    + destruct (Hrow u eq_refl) as (u' & -> & _). by split; eauto.
    + assert (Hno : forall u, ~ tracked db i u).
      { intros u (Hu' & _). congruence. }
      subst r. rewrite (untracked_step self env db i st Hno). simpl.
      by rewrite Hu.
  - by rewrite Hother.
Qed.

Lemma run_tracked_down checks : forall db i u,
  tracked db i u -> all_down checks ->
  exists u', tracked (run self db i checks).1 i u'
    /\ consecutive_failures u'
       = consecutive_failures u + Z.of_nat (length checks).
Proof.
  induction checks as [|[st env] rest IH]; intros db i u Ht Hall.
  { exists u. split; [done|]. simpl. lia. }
  inversion Hall as [|? ? Hdown Hrest]; subst. simpl in Hdown.
  destruct (down_step_row self env db i u st Ht Hdown) as (u1 & Ht1 & Hc1).
  destruct (IH _ i u1 Ht1 Hrest) as (u2 & Ht2 & Hc2).
  rewrite run_cons. simpl. exists u2. split; [done|].
  rewrite Hc2, Hc1. lia.
Qed.

(** X3. Along a streak of down outcomes of a tracked target the counter
    counts them: after [n] of them it has grown by exactly [n], whether or
    not an alert went out on the way. *)
Theorem down_streak_counts_failures :
  forall (db : gmap Z URL) (i : Z) (u : URL)
         (checks : list (URLStatus * Env)),
    tracked db i u ->
    all_down checks ->
    exists u', (run self db i checks).1 !! i = Some u'
      /\ consecutive_failures u'
         = consecutive_failures u + Z.of_nat (length checks).
Proof.
  intros db i u checks Ht Hall.
  destruct (run_tracked_down checks db i u Ht Hall) as (u' & (Hu' & _) & Hc).
  by exists u'.
Qed.

Lemma count_le (p q : event -> bool) tr :
  (forall e, p e = true -> q e = true) -> (count p tr <= count q tr)%nat.
Proof.
  intros Hpq. induction tr as [|e tr IH]; simpl; [lia|].
  destruct (p e) eqn:Hp; [rewrite (Hpq e Hp); lia|].
  destruct (q e); lia.
Qed.

Lemma delivered_is_post k e : is_delivered k e = true -> is_post k e = true.
Proof. destruct e as [k' ?|k' ? []|?], k; try destruct k'; done. Qed.

(** One call either leaves [last_alerted_at] alone and delivers no
    failure alert, or delivers one and stamps the row with its clock. *)
Lemma step_stamp env db i u st :
  db !! i = Some u ->
  let r := process_status_for_alerts self env db i st in
  exists u', r.1 !! i = Some u'
    /\ ((last_alerted_at u' = last_alerted_at u
         /\ count (is_delivered Failure) r.2 = 0%nat)
        \/ (last_alerted_at u' = Some (now_stamp env)
            /\ count (is_delivered Failure) r.2 = 1%nat)).
Proof.
  intros Hu. destruct (tracked_dec db i) as [[u0 Ht]|Hno].
  - assert (u0 = u) as -> by (destruct Ht; congruence).
    pose proof Ht as (_ & Ha & Ho). simpl.
    destruct (is_up st) eqn:Hup.
    + rewrite (up_step self env db i u st Ht Hup). simpl.
      eexists. split; [apply lookup_insert_eq|]. left. split; [done|].
      destruct (alerting self u && alert_recovery u); [|done].
      unfold send_recovery_alert.
      by destruct (webhook_unset self), (post_ok env).
    + rewrite (down_step self env db i u st Ht Hup). simpl.
      destruct (consecutive_failures u + 1 =? failure_threshold self); simpl.
      * eexists. split; [apply lookup_insert_eq|].
        unfold send_failure_alert.
        destruct (webhook_unset self); [by left|].
        destruct (in_cooldown self env _); [by left|].
        destruct (post_ok env); [by right | by left].
      * eexists. split; [apply lookup_insert_eq|]. by left.
  - simpl. rewrite (untracked_step self env db i st Hno). simpl.
    exists u. split; [done|]. by left.
Qed.

Lemma run_stamp checks : forall db i u,
  db !! i = Some u ->
  exists u', (run self db i checks).1 !! i = Some u'
    /\ ((last_alerted_at u' = last_alerted_at u
         /\ count (is_delivered Failure) (run self db i checks).2 = 0%nat)
        \/ (exists c, In c checks
              /\ last_alerted_at u' = Some (now_stamp c.2)
              /\ (0 < count (is_delivered Failure)
                        (run self db i checks).2)%nat)).
Proof.
  induction checks as [|[st env] rest IH]; intros db i u Hu.
  { exists u. split; [done|]. by left. }
  rewrite run_cons. simpl. rewrite count_app.
  destruct (step_stamp env db i u st Hu) as (u1 & Hu1 & Hstep).
  destruct (IH _ i u1 Hu1) as (u2 & Hu2 & Hrest).
  exists u2. split; [done|].
  destruct Hrest as [[Hsame Hzero]|(c & Hin & Hc & Hpos)].
  - destruct Hstep as [[Hsame1 Hzero1]|[Hnew1 Hone1]].
    + left. split; [congruence | lia].
    + right. exists (st, env). split; [by left|]. simpl.
      split; [congruence | lia].
  - right. exists c. split; [by right|]. split; [done | lia].
Qed.

(** X4. With no webhook configured (the setting is the empty string) no
    notification of either kind is ever posted, whatever the outcomes,
    and [last_alerted_at] stays what it was. *)
Theorem no_webhook_no_notification :
  forall (db : gmap Z URL) (i : Z) (checks : list (URLStatus * Env)),
    webhook_unset self = true ->
    count (is_post Failure) (run self db i checks).2 = 0%nat
    /\ count (is_post Recovery) (run self db i checks).2 = 0%nat
    /\ (forall u, db !! i = Some u ->
          exists u', (run self db i checks).1 !! i = Some u'
            /\ last_alerted_at u' = last_alerted_at u).
Proof.
  intros db i checks Hw.
  assert (Hstep : forall env db st k,
            count (is_post k)
              (process_status_for_alerts self env db i st).2 = 0%nat).
  { intros env db0 st k. unfold process_status_for_alerts.
    destruct (db0 !! i) as [u|]; [|done].
    destruct (negb (alert_enabled u) || is_one_time u); [done|].
    destruct (is_up st).
    - simpl. destruct (_ && _); [|done].
      unfold send_recovery_alert. rewrite Hw. by destruct k.
    - simpl. destruct (_ =? _); [|done].
      unfold send_failure_alert. rewrite Hw. by destruct k. }
  assert (Hrun : forall k db,
            count (is_post k) (run self db i checks).2 = 0%nat).
  { intros k. induction checks as [|[st env] rest IH]; intros db0; [done|].
    rewrite run_cons. simpl. by rewrite count_app, Hstep, IH. }
  split; [apply Hrun|]. split; [apply Hrun|].
  intros u Hu. destruct (run_stamp checks db i u Hu)
    as (u' & Hu' & [[Hsame _]|(c & _ & _ & Hpos)]).
  - by exists u'.
  - pose proof (count_le (is_delivered Failure) (is_post Failure)
                  (run self db i checks).2 (delivered_is_post Failure)).
    rewrite Hrun in H. lia.
Qed.

(** X5. [last_alerted_at] moves only when a failure alert is delivered:
    after any sequence of checks it is what it was if no failure
    notification got through, and otherwise it is the clock reading taken
    at one of the checks. Recovery alerts never touch it. *)
Theorem last_alerted_at_moves_only_on_delivery :
  forall (db : gmap Z URL) (i : Z) (u : URL)
         (checks : list (URLStatus * Env)),
    db !! i = Some u ->
    exists u', (run self db i checks).1 !! i = Some u'
      /\ (count (is_delivered Failure) (run self db i checks).2 = 0%nat ->
          last_alerted_at u' = last_alerted_at u)
      /\ (count (is_delivered Failure) (run self db i checks).2 <> 0%nat ->
          exists c, In c checks
            /\ last_alerted_at u' = Some (now_stamp c.2)).
Proof.
  intros db i u checks Hu.
  destruct (run_stamp checks db i u Hu)
    as (u' & Hu' & [[Hsame Hzero]|(c & Hin & Hc & Hpos)]);
    exists u'; (split; [done|]); split; intros Hd; try done; try lia.
  by exists c.
Qed.

(** X6. With a threshold of at least 1, a run of up outcomes sends at most
    one recovery alert: the first one resets the counter, so the following
    ones find the target not alerting. *)
Theorem recovery_at_most_once_per_up_run :
  forall (db : gmap Z URL) (i : Z) (checks : list (URLStatus * Env)),
    0 < failure_threshold self ->
    Forall (fun c => is_up c.1 = true) checks ->
    (count (is_call Recovery) (run self db i checks).2 <= 1)%nat
    /\ (count (is_post Recovery) (run self db i checks).2 <= 1)%nat.
Proof.
  intros db i checks Hpos Hall.
  assert (Hquiet : forall checks, Forall (fun c => is_up c.1 = true) checks ->
            forall db,
              (forall u, tracked db i u -> alerting self u = false) ->
              count (is_call Recovery) (run self db i checks).2 = 0%nat
              /\ count (is_post Recovery) (run self db i checks).2 = 0%nat).
  { clear db checks Hall. induction 1 as [|[st env] rest Hup _ IH]; [done|].
    intros db Hq. simpl in Hup. rewrite run_cons. simpl. rewrite !count_app.
    destruct (step_no_recovery self env db i st Hq) as [-> ->].
    apply IH. intros u' Ht'.
    destruct (tracked_dec db i) as [[u Ht]|Hno].
    - rewrite (up_step self env db i u st Ht Hup) in Ht'. simpl in Ht'.
      destruct Ht' as (Hu' & _). rewrite lookup_insert_eq in Hu'.
      injection Hu' as <-. unfold alerting. simpl. apply Z.leb_gt. lia.
    - rewrite (untracked_step self env db i st Hno) in Ht'. by apply Hq. }
  destruct Hall as [|[st env] rest Hup Hrest]; [simpl; lia|].
  simpl in Hup. rewrite run_cons. simpl. rewrite !count_app.
  destruct (tracked_dec db i) as [[u Ht]|Hno].
  - destruct (Hquiet rest Hrest
                (process_status_for_alerts self env db i st).1) as [-> ->].
    { intros u' Ht'.
      rewrite (up_step self env db i u st Ht Hup) in Ht'. simpl in Ht'.
      destruct Ht' as (Hu' & _). rewrite lookup_insert_eq in Hu'.
      injection Hu' as <-. unfold alerting. simpl. apply Z.leb_gt. lia. }
    rewrite (up_step self env db i u st Ht Hup). simpl.
    destruct (alerting self u && alert_recovery u); simpl; [|lia].
    unfold send_recovery_alert.
    destruct (webhook_unset self), (post_ok env); simpl; lia.
  - rewrite (untracked_step self env db i st Hno). simpl.
    destruct (Hquiet rest Hrest db) as [-> ->]; [|lia].
    intros u Ht. by destruct (Hno u).
Qed.

Lemma step_counter_nonneg env db i st :
  (forall u, db !! i = Some u -> 0 <= consecutive_failures u) ->
  forall u', (process_status_for_alerts self env db i st).1 !! i = Some u' ->
    0 <= consecutive_failures u'.
Proof.
  intros Hnn u' Hu'. destruct (tracked_dec db i) as [[u Ht]|Hno].
  - pose proof Ht as (Hu & _). specialize (Hnn u Hu).
    destruct (is_up st) eqn:Hup.
    + rewrite (up_step self env db i u st Ht Hup) in Hu'. simpl in Hu'.
      rewrite lookup_insert_eq in Hu'. by injection Hu' as <-.
    + destruct (down_step_row self env db i u st Ht Hup)
        as (u1 & (Hu1 & _) & Hc). assert (u' = u1) as -> by congruence. lia.
  - rewrite (untracked_step self env db i st Hno) in Hu'. by apply Hnn.
Qed.

(** X7. The counter never becomes negative: if the row's
    [consecutive_failures] is at least 0, it still is after any sequence of
    checks. *)
Theorem consecutive_failures_stays_nonnegative :
  forall (db : gmap Z URL) (i : Z) (checks : list (URLStatus * Env)),
    (forall u, db !! i = Some u -> 0 <= consecutive_failures u) ->
    forall u', (run self db i checks).1 !! i = Some u' ->
      0 <= consecutive_failures u'.
Proof.
  intros db i checks. revert db.
  induction checks as [|[st env] rest IH]; intros db Hnn u' Hu'.
  { by apply Hnn. }
  rewrite run_cons in Hu'. simpl in Hu'.
  apply (IH _ (step_counter_nonneg env db i st Hnn) u' Hu').
Qed.

(** X8. With a failure threshold of 0 or less no failure alert is ever
    raised for a counter that starts at 0 or above: the counter is at
    least 1 after a down outcome and so never equals the threshold. *)
Theorem nonpositive_threshold_never_alerts :
  forall (db : gmap Z URL) (i : Z) (checks : list (URLStatus * Env)),
    failure_threshold self <= 0 ->
    (forall u, db !! i = Some u -> 0 <= consecutive_failures u) ->
    count (is_call Failure) (run self db i checks).2 = 0%nat
    /\ count (is_post Failure) (run self db i checks).2 = 0%nat.
Proof.
  intros db i checks Hthr. revert db.
  assert (Hcalls : forall db,
            (forall u, db !! i = Some u -> 0 <= consecutive_failures u) ->
            count (is_call Failure) (run self db i checks).2 = 0%nat).
  { induction checks as [|[st env] rest IH]; intros db Hnn; [done|].
    rewrite run_cons. simpl. rewrite count_app.
    rewrite (IH _ (step_counter_nonneg env db i st Hnn)).
    destruct (tracked_dec db i) as [[u Ht]|Hno].
    - pose proof Ht as (Hu & _). specialize (Hnn u Hu).
      destruct (is_up st) eqn:Hup.
      + rewrite (up_step self env db i u st Ht Hup). simpl.
        destruct (alerting self u && alert_recovery u); [|done]. simpl.
        rewrite send_recovery_alert_no_failure; auto.
      + rewrite (down_step self env db i u st Ht Hup). simpl.
        destruct (consecutive_failures u + 1 =? failure_threshold self)
          eqn:Heq; [|done].
        apply Z.eqb_eq in Heq. lia.
    - by rewrite (untracked_step self env db i st Hno). }
  intros db Hnn. split; [by apply Hcalls|].
  pose proof (run_posts_le_calls self checks db i).
  rewrite (Hcalls db Hnn) in H. lia.
Qed.

End AlertTracker.

Section AlertTrackerWitnesses.

Import AlertManager Scenario.
Local Open Scope Z_scope.

Lemma untracked_target_is_ignored_witness :
  (exists u, ({[ 7 := one_time_row ]} : gmap Z URL) !! 7 = Some u
     /\ (alert_enabled u = false \/ is_one_time u = true))
  /\ process_status_for_alerts manager (webhook_accepts 0)
       {[ 7 := one_time_row ]} 7 down
     = ({[ 7 := one_time_row ]}, []).
Proof.
  assert (Hguard : exists u,
            ({[ 7 := one_time_row ]} : gmap Z URL) !! 7 = Some u
            /\ (alert_enabled u = false \/ is_one_time u = true)).
  { exists one_time_row. split; [reflexivity | right; reflexivity]. }
  split; [exact Hguard|].
  exact (untracked_target_is_ignored manager (webhook_accepts 0)
           {[ 7 := one_time_row ]} 7 down (or_intror Hguard)).
Defined.

Lemma down_streak_counts_failures_witness :
  tracked table 1 target
  /\ all_down [(down, webhook_accepts 0); (down, webhook_accepts 60000000)]
  /\ exists u',
       (run manager table 1
          [(down, webhook_accepts 0); (down, webhook_accepts 60000000)]).1
         !! 1 = Some u'
       /\ consecutive_failures u' = consecutive_failures target + 2.
Proof.
  assert (Ht : tracked table 1 target) by (repeat split; reflexivity).
  assert (Hall : all_down [(down, webhook_accepts 0);
                           (down, webhook_accepts 60000000)]).
  { repeat constructor. }
  split; [exact Ht|]. split; [exact Hall|].
  exact (down_streak_counts_failures manager table 1 target _ Ht Hall).
Defined.

Lemma no_webhook_no_notification_witness :
  webhook_unset silent_manager = true
  /\ count (is_post Failure)
       (run silent_manager table 1 [(down, webhook_accepts 0)]).2 = 0%nat.
Proof.
  split; [reflexivity|].
  exact (proj1 (no_webhook_no_notification silent_manager table 1
                  [(down, webhook_accepts 0)] eq_refl)).
Defined.

Lemma last_alerted_at_moves_only_on_delivery_witness :
  table !! 1 = Some target
  /\ exists u',
       (run manager table 1 [(down, webhook_refuses 0)]).1 !! 1 = Some u'
       /\ last_alerted_at u' = last_alerted_at target.
Proof.
  split; [reflexivity|].
  destruct (last_alerted_at_moves_only_on_delivery manager table 1 target
              [(down, webhook_refuses 0)] eq_refl)
    as (u' & Hu' & Hkeep & _).
  exists u'. split; [exact Hu'|]. apply Hkeep. reflexivity.
Defined.

Lemma recovery_at_most_once_per_up_run_witness :
  0 < failure_threshold manager
  /\ Forall (fun c => is_up c.1 = true)
       [(up, webhook_accepts 0); (up, webhook_accepts 60000000)]
  /\ (count (is_call Recovery)
        (run manager alerting_table 1
           [(up, webhook_accepts 0); (up, webhook_accepts 60000000)]).2
      <= 1)%nat.
Proof.
  assert (Hpos : 0 < failure_threshold manager) by reflexivity.
  assert (Hall : Forall (fun c => is_up c.1 = true)
                   [(up, webhook_accepts 0); (up, webhook_accepts 60000000)]).
  { repeat constructor. }
  split; [exact Hpos|]. split; [exact Hall|].
  exact (proj1 (recovery_at_most_once_per_up_run manager alerting_table 1
                  _ Hpos Hall)).
Defined.

Lemma scenario_counter_nonnegative :
  forall u, table !! 1 = Some u -> 0 <= consecutive_failures u.
Proof.
  intros u Hu. assert (u = target) as ->.
  { unfold table in Hu. rewrite lookup_singleton_eq in Hu. congruence. }
  simpl. lia.
Qed.

Lemma consecutive_failures_stays_nonnegative_witness :
  (forall u, table !! 1 = Some u -> 0 <= consecutive_failures u)
  /\ forall u',
       (run manager table 1 [(down, webhook_accepts 0);
                             (up, webhook_accepts 60000000)]).1 !! 1
       = Some u' ->
       0 <= consecutive_failures u'.
Proof.
  split; [exact scenario_counter_nonnegative|].
  exact (consecutive_failures_stays_nonnegative manager table 1 _
           scenario_counter_nonnegative).
Defined.

Lemma nonpositive_threshold_never_alerts_witness :
  failure_threshold zero_threshold_manager <= 0
  /\ (forall u, table !! 1 = Some u -> 0 <= consecutive_failures u)
  /\ count (is_call Failure)
       (run zero_threshold_manager table 1
          [(down, webhook_accepts 0); (down, webhook_accepts 60000000)]).2
     = 0%nat.
Proof.
  assert (Hthr : failure_threshold zero_threshold_manager <= 0)
    by (simpl; lia).
  split; [exact Hthr|]. split; [exact scenario_counter_nonnegative|].
  exact (proj1 (nonpositive_threshold_never_alerts zero_threshold_manager
                  table 1 _ Hthr scenario_counter_nonnegative)).
Defined.

End AlertTrackerWitnesses.

(** ** More on the probe *)

Section ProbeMore.

Import NetworkMonitor.
Local Open Scope Z_scope.

(** X9. Whatever the network does, one check appends exactly one outcome
    to the history, the one it returns, for the target it was asked about;
    its commit also turns the objects pending in the shared session into
    rows; the scheduler is not touched. *)
Theorem check_url_records_one_outcome :
  forall (env : ProbeEnv) (m : t) (url_id : Z) (url : string),
    let r := check_url env m url_id url in
    url_statuses r.1 = url_statuses m ++ [r.2]
    /\ Models.url_id r.2 = url_id
    /\ subsequent_requests r.1 = subsequent_requests m ++ pending m
    /\ pending r.1 = []
    /\ scheduler r.1 = scheduler m
    /\ jobs r.1 = jobs m.
Proof.
  intros env m url_id url. unfold check_url.
  destruct (capture_thread_raises env), (fallback_thread_raises env),
    (get env) as [?|[code elapsed]]; simpl; done.
Qed.

(** X10. The probe starts one discovery thread per check, the capture
    thread, or the fallback thread when the capture thread cannot be
    started. When neither can be started the GET is not attempted at all:
    the outcome is a failure carrying the text of the second exception,
    whatever the server would have answered. *)
Theorem check_url_thread_start :
  forall (env : ProbeEnv) (m : t) (url_id : Z) (url : string),
    let r := check_url env m url_id url in
    (capture_thread_raises env = None ->
       threads r.1 = threads m ++ [CaptureThread url_id url])
    /\ (capture_thread_raises env <> None ->
        fallback_thread_raises env = None ->
        threads r.1 = threads m ++ [FallbackThread url_id url])
    /\ (forall e, capture_thread_raises env <> None ->
          fallback_thread_raises env = Some e ->
          threads r.1 = threads m
          /\ r.2 = mkURLStatus url_id 0 0 false (Some e)).
Proof.
  intros env m url_id url. unfold check_url.
  destruct (capture_thread_raises env) as [e1|],
    (fallback_thread_raises env) as [e2|],
    (get env) as [?|[code elapsed]]; simpl;
    repeat split; try done; intros; congruence.
Qed.

(** X11. The recorded outcome is coherent: an outcome that is up carries
    no error text and a status code below 400; an outcome with an error
    text has status code 0, latency 0 and is down. *)
Theorem check_url_outcome_coherent :
  forall (env : ProbeEnv) (m : t) (url_id : Z) (url : string),
    let st := (check_url env m url_id url).2 in
    (is_up st = true -> error_message st = None /\ status_code st < 400)
    /\ (error_message st <> None ->
        status_code st = 0 /\ response_time st = 0 /\ is_up st = false).
Proof.
  intros env m url_id url. unfold check_url.
  destruct (capture_thread_raises env), (fallback_thread_raises env),
    (get env) as [?|[code elapsed]]; simpl;
    split; intros H; try discriminate; try done.
  all: split; [done | by apply Z.ltb_lt].
Qed.

End ProbeMore.

(** ** More on the scheduler *)

Section SchedulerMore.

Import NetworkMonitor.
Local Open Scope Z_scope.

Lemma fresh_job_unused m :
  consistent m -> scheduler m !! next_job m = None.
Proof.
  intros (_ & _ & Hfresh).
  destruct (scheduler m !! next_job m) eqn:Hl; [|done].
  assert (next_job m < next_job m)%nat by (apply Hfresh; eauto). lia.
Qed.

Lemma stop_monitoring_fields m i :
  let r := stop_monitoring m i in
  match jobs m !! i with
  | Some j =>
      scheduler r.1 = delete j (scheduler m)
      /\ jobs r.1 = delete i (jobs m)
      /\ next_job r.1 = next_job m
      /\ url_statuses r.1 = url_statuses m
      /\ subsequent_requests r.1 = subsequent_requests m
      /\ r.2 = true
  | None => r = (m, false)
  end.
Proof. unfold stop_monitoring. by destruct (jobs m !! i). Qed.

Lemma stop_monitoring_consistent m i :
  consistent m -> consistent (stop_monitoring m i).1.
Proof.
  intros Hc. pose proof Hc as (Hdict & Hstore & Hfresh).
  pose proof (stop_monitoring_fields m i) as Hf. simpl in Hf.
  destruct (jobs m !! i) as [j|] eqn:Hj; [|by rewrite Hf].
  destruct Hf as (Hs & Hjs & Hn & _).
  destruct (Hdict _ _ Hj) as (jb0 & Hjb0 & Harg0).
  split; [|split].
  - intros k j'. rewrite Hjs, Hs. intros Hl.
    destruct (decide (i = k)) as [<-|Hne].
    { by rewrite lookup_delete_eq in Hl. }
    rewrite lookup_delete_ne in Hl by done.
    destruct (Hdict _ _ Hl) as (jb & Hjb & Harg).
    exists jb. split; [|done]. rewrite lookup_delete_ne; [done|].
    intros ->. congruence.
  - intros j' jb. rewrite Hjs, Hs. intros Hl.
    destruct (decide (j = j')) as [<-|Hne].
    { by rewrite lookup_delete_eq in Hl. }
    rewrite lookup_delete_ne in Hl by done.
    pose proof (Hstore _ _ Hl) as Hback.
    rewrite lookup_delete_ne; [done|]. intros Heq.
    rewrite <- Heq in Hback. congruence.
  - intros j'. rewrite Hs, Hn. intros [jb Hl].
    destruct (decide (j = j')) as [<-|Hne].
    { by rewrite lookup_delete_eq in Hl. }
    rewrite lookup_delete_ne in Hl by done. apply Hfresh. eauto.
Qed.

Lemma start_monitoring_consistent env m u :
  consistent m -> consistent (start_monitoring env m u).
Proof.
  intros Hc. pose proof Hc as (Hdict & Hstore & Hfresh).
  pose proof (fresh_job_unused m Hc) as Hnew.
  destruct (start_monitoring_fields env m u) as (Hs & Hn & Hj & _).
  set (kept := match jobs m !! id u with
               | Some old => delete old (scheduler m)
               | None => scheduler m
               end) in *.
  assert (Hkept : forall j jb, kept !! j = Some jb ->
            scheduler m !! j = Some jb /\ (args jb).1 <> id u).
  { subst kept. intros j jb Hl.
    destruct (jobs m !! id u) as [old|] eqn:Hold.
    - destruct (decide (old = j)) as [->|Hne].
      + by rewrite lookup_delete_eq in Hl.
      + rewrite lookup_delete_ne in Hl by done. split; [done|].
        intros Heq. apply Hstore in Hl. rewrite Heq in Hl. congruence.
    - split; [done|]. intros Heq. apply Hstore in Hl.
      rewrite Heq in Hl. congruence. }
  split; [|split].
  - intros i j. rewrite Hj, Hs. intros Hl.
    destruct (decide (id u = i)) as [<-|Hne].
    + rewrite lookup_insert_eq in Hl. injection Hl as <-.
      rewrite lookup_insert_eq. eauto.
    + rewrite lookup_insert_ne in Hl by done.
      destruct (Hdict i j Hl) as (jb & Hjb & Harg).
      exists jb. split; [|done].
      assert (j <> next_job m) by (intros ->; congruence).
      rewrite lookup_insert_ne by done.
      subst kept. destruct (jobs m !! id u) as [old|] eqn:Hold; [|done].
      rewrite lookup_delete_ne; [done|].
      intros ->. destruct (Hdict _ _ Hold) as (jb' & Hjb' & Harg').
      congruence.
  - intros j jb. rewrite Hj, Hs. intros Hl.
    destruct (decide (next_job m = j)) as [<-|Hne].
    + rewrite lookup_insert_eq in Hl. injection Hl as <-. simpl.
      apply lookup_insert_eq.
    + rewrite lookup_insert_ne in Hl by done.
      destruct (Hkept j jb Hl) as [Hjb Harg].
      rewrite lookup_insert_ne by done. by apply Hstore.
  - intros j. rewrite Hs, Hn. intros [jb Hl].
    destruct (decide (next_job m = j)) as [<-|Hne]; [lia|].
    rewrite lookup_insert_ne in Hl by done.
    destruct (Hkept j jb Hl) as [Hjb _].
    assert (j < next_job m)%nat by (apply Hfresh; eauto). lia.
Qed.

(** X12. [stop_monitoring] removes the target's job from the dict and
    from the job store and reports True exactly when there was one; no job
    of the store belongs to the target afterwards, the other targets keep
    theirs, the agreement of dict and store is kept, and stopping again is
    a no-op that reports False. *)
Theorem stop_monitoring_removes_job :
  forall (m : t) (i : Z),
    consistent m ->
    let r := stop_monitoring m i in
    consistent r.1
    /\ jobs r.1 !! i = None
    /\ (r.2 = true <-> is_Some (jobs m !! i))
    /\ (forall j jb, scheduler r.1 !! j = Some jb -> (args jb).1 <> i)
    /\ (forall k, k <> i -> jobs r.1 !! k = jobs m !! k)
    /\ stop_monitoring r.1 i = (r.1, false).
Proof.
  intros m i Hc r.
  pose proof (stop_monitoring_consistent m i Hc) as Hc'. fold r in Hc'.
  pose proof (stop_monitoring_fields m i) as Hf. simpl in Hf. fold r in Hf.
  assert (Hnone : jobs r.1 !! i = None).
  { destruct (jobs m !! i) as [j|] eqn:Hj.
    - destruct Hf as (_ & -> & _). apply lookup_delete_eq.
    - by rewrite Hf. }
  split; [exact Hc'|]. split; [exact Hnone|].
  split; [|split; [|split]].
  - destruct (jobs m !! i) as [j|] eqn:Hj.
    + destruct Hf as (_ & _ & _ & _ & _ & ->). split; eauto.
    + rewrite Hf. simpl. split; [done|]. intros [? ?]; done.
  - intros j jb Hl Harg. destruct Hc' as (_ & Hstore' & _).
    apply Hstore' in Hl. rewrite Harg in Hl. congruence.
  - intros k Hne. destruct (jobs m !! i) as [j|] eqn:Hj.
    + destruct Hf as (_ & -> & _). by rewrite lookup_delete_ne.
    + by rewrite Hf.
  - unfold stop_monitoring at 1. by rewrite Hnone.
Qed.

(** X13. Starting and then stopping a target that had no job leaves the
    job store and the dict as they were. *)
Theorem start_then_stop_restores_scheduler :
  forall (env : ProbeEnv) (m : t) (u : URL),
    consistent m ->
    jobs m !! id u = None ->
    let m' := (stop_monitoring (start_monitoring env m u) (id u)).1 in
    scheduler m' = scheduler m /\ jobs m' = jobs m.
Proof.
  intros env m u Hc Hnone m'.
  destruct (start_monitoring_fields env m u) as (Hs & Hn & Hj & _).
  rewrite Hnone in Hs.
  pose proof (stop_monitoring_fields (start_monitoring env m u) (id u)) as Hf.
  simpl in Hf. rewrite Hj, lookup_insert_eq in Hf.
  destruct Hf as (Hs' & Hj' & _). subst m'. rewrite Hs', Hj', Hs.
  split.
  - apply delete_insert_id. by apply fresh_job_unused.
  - by apply delete_insert_id.
Qed.

(** X14. [update_frequency] does nothing and reports False for a target
    without a job. For a target with a job it reports True and replaces
    the job by one at the row's current [check_frequency]; the old job is
    gone, the number of jobs is the same, and dict and store still
    agree. *)
Theorem update_frequency_replaces_job :
  forall (env : ProbeEnv) (m : t) (u : URL),
    consistent m ->
    let r := update_frequency env m u in
    consistent r.1
    /\ (jobs m !! id u = None -> r = (m, false))
    /\ (forall old, jobs m !! id u = Some old ->
          r.2 = true
          /\ scheduler r.1 !! old = None
          /\ size (scheduler r.1) = size (scheduler m)
          /\ exists j, jobs r.1 !! id u = Some j
               /\ scheduler r.1 !! j
                  = Some (mkJob (check_frequency u) (id u, url u))).
Proof.
  intros env m u Hc r. subst r. unfold update_frequency.
  destruct (jobs m !! id u) as [old|] eqn:Hold; simpl.
  - pose proof (stop_monitoring_consistent m (id u) Hc) as Hc1.
    pose proof (stop_monitoring_fields m (id u)) as Hf. simpl in Hf.
    rewrite Hold in Hf. destruct Hf as (Hs1 & Hj1 & Hn1 & _).
    set (m1 := (stop_monitoring m (id u)).1) in *.
    destruct (start_monitoring_fields env m1 u) as (Hs & Hn & Hj & _).
    assert (Hnone1 : jobs m1 !! id u = None).
    { rewrite Hj1. apply lookup_delete_eq. }
    rewrite Hnone1 in Hs.
    destruct Hc as (Hdict & _ & Hfresh).
    destruct (Hdict _ _ Hold) as (jb & Hjb & _).
    assert (Hlt : (old < next_job m)%nat) by (apply Hfresh; eauto).
    split; [by apply start_monitoring_consistent|]. split; [done|].
    intros old' Hold'. injection Hold' as <-. split; [done|].
    rewrite Hs, Hj, Hs1, Hn1. split; [|split].
    + rewrite lookup_insert_ne by lia. apply lookup_delete_eq.
    + rewrite map_size_insert_None.
      * rewrite map_size_delete_Some by eauto.
        destruct (size (scheduler m)) eqn:Hz; [|done].
        apply map_size_empty_inv in Hz. rewrite Hz in Hjb. done.
      * rewrite lookup_delete_ne by lia.
        destruct (scheduler m !! next_job m) eqn:Hl; [|done].
        assert (next_job m < next_job m)%nat by (apply Hfresh; eauto). lia.
    + exists (next_job m). by rewrite !lookup_insert_eq.
  - split; [done|]. split; [done|]. intros old Hold'. done.
Qed.

End SchedulerMore.

Section SchedulerMoreWitnesses.

Import NetworkMonitor Scenario.
Local Open Scope Z_scope.

Lemma fresh_monitor_consistent : consistent fresh_monitor.
Proof.
  split; [|split].
  - intros i j Hl. cbn in Hl. by rewrite lookup_empty in Hl.
  - intros j jb Hl. cbn in Hl. by rewrite lookup_empty in Hl.
  - intros j [jb Hl]. cbn in Hl. by rewrite lookup_empty in Hl.
Qed.

Lemma scheduled_monitor_consistent : consistent scheduled_monitor.
Proof.
  exact (start_monitoring_consistent server_up fresh_monitor target
           fresh_monitor_consistent).
Qed.

Lemma stop_monitoring_removes_job_witness :
  let r := stop_monitoring scheduled_monitor 1 in
  consistent scheduled_monitor
  /\ jobs scheduled_monitor !! 1 = Some 0%nat
  /\ scheduler scheduled_monitor !! 0%nat
     = Some (mkJob 60 (1, "https://example.com"))
  /\ r.2 = true
  /\ jobs r.1 !! 1 = None
  /\ (forall j jb, scheduler r.1 !! j = Some jb -> (args jb).1 <> 1).
Proof.
  destruct (stop_monitoring_removes_job scheduled_monitor 1
              scheduled_monitor_consistent)
    as (_ & Hgone & Hret & Hstore & _).
  cbv zeta.
  split; [exact scheduled_monitor_consistent|].
  split; [reflexivity|]. split; [reflexivity|].
  split; [apply Hret; by exists 0%nat|].
  split; [exact Hgone | exact Hstore].
Defined.

Lemma start_then_stop_restores_scheduler_witness :
  consistent fresh_monitor
  /\ jobs fresh_monitor !! id target = None
  /\ scheduler (stop_monitoring
                  (start_monitoring server_up fresh_monitor target)
                  (id target)).1
     = scheduler fresh_monitor.
Proof.
  split; [exact fresh_monitor_consistent|]. split; [reflexivity|].
  exact (proj1 (start_then_stop_restores_scheduler server_up fresh_monitor
                  target fresh_monitor_consistent eq_refl)).
Defined.

Lemma update_frequency_replaces_job_witness :
  let r := update_frequency server_up scheduled_monitor faster_target in
  consistent scheduled_monitor
  /\ jobs scheduled_monitor !! 1 = Some 0%nat
  /\ scheduler scheduled_monitor !! 0%nat
     = Some (mkJob 60 (1, "https://example.com"))
  /\ r.2 = true
  /\ scheduler r.1 !! 0%nat = None
  /\ size (scheduler r.1) = size (scheduler scheduled_monitor)
  /\ (exists j, jobs r.1 !! 1 = Some j
        /\ scheduler r.1 !! j = Some (mkJob 30 (1, "https://example.com"))).
Proof.
  assert (Hold : jobs scheduled_monitor !! id faster_target = Some 0%nat)
    by reflexivity.
  destruct (update_frequency_replaces_job server_up scheduled_monitor
              faster_target scheduled_monitor_consistent)
    as (_ & _ & Hjob).
  destruct (Hjob _ Hold) as (Hret & Hgone & Hsize & j & Hj & Hnew).
  cbv zeta.
  split; [exact scheduled_monitor_consistent|].
  split; [exact Hold|]. split; [reflexivity|].
  split; [exact Hret|]. split; [exact Hgone|]. split; [exact Hsize|].
  exists j. split; [exact Hj | exact Hnew].
Defined.

End SchedulerMoreWitnesses.


(** ** More on resource discovery *)

Section DiscoveryMore.

Import NetworkMonitor.
Local Open Scope Z_scope.

Lemma url_exists_iff m i u :
  _url_exists_for_monitor m i u = true <-> In (i, u) (recorded_pairs m).
Proof.
  unfold _url_exists_for_monitor, recorded_pairs.
  rewrite existsb_exists, in_map_iff. split.
  - intros (r & Hin & Hr). apply andb_true_iff in Hr as [Hi Hu].
    apply Z.eqb_eq in Hi. apply String.eqb_eq in Hu.
    exists r. split; [congruence | done].
  - intros (r & Hr & Hin). injection Hr as <- <-.
    exists r. split; [done|]. apply andb_true_iff.
    split; [apply Z.eqb_eq | apply String.eqb_eq]; done.
Qed.

Lemma set_session_same m :
  set_session (subsequent_requests m) (pending m) m = m.
Proof. by destruct m. Qed.

(** The loop adds, in order, one row for each resource whose address is
    not among the committed rows; it neither commits nor looks at what it
    has added itself. *)
Lemma save_resources_spec ip_of url_id resources : forall m added,
  save_resources ip_of url_id resources m added =
    let new :=
      map (row_of ip_of url_id)
          (List.filter
             (fun r => negb (_url_exists_for_monitor m url_id (res_url r)))
             resources) in
    (set_session (subsequent_requests m) (pending m ++ new) m,
     (added + length new)%nat).
Proof.
  induction resources as [|r rest IH]; intros m added; simpl.
  { rewrite app_nil_r, set_session_same. f_equal. lia. }
  destruct (_url_exists_for_monitor m url_id (res_url r)) eqn:Hex; simpl.
  - apply IH.
  - rewrite IH. unfold _url_exists_for_monitor, db_add, set_session. simpl.
    rewrite <- app_assoc. simpl. f_equal. lia.
Qed.

Lemma save_and_commit_rows ip_of url_id resources m :
  let new :=
    map (row_of ip_of url_id)
        (List.filter
           (fun r => negb (_url_exists_for_monitor m url_id (res_url r)))
           resources) in
  subsequent_requests (save_and_commit ip_of url_id resources m)
  = match new with
    | [] => subsequent_requests m
    | _ => subsequent_requests m ++ pending m ++ new
    end.
Proof.
  unfold save_and_commit. rewrite save_resources_spec. simpl.
  destruct (map _ _) as [|x new]; simpl; done.
Qed.

Lemma add_if_new_rows req m :
  subsequent_requests (add_if_new req m)
  = if _url_exists_for_monitor m (parent_id req) (target_url req)
    then subsequent_requests m
    else subsequent_requests m ++ pending m ++ [req].
Proof. unfold add_if_new. by destruct (_url_exists_for_monitor _ _ _). Qed.

Lemma add_if_new_records_once_aux req m :
  pending m = [] -> NoDup (recorded_pairs m) ->
  NoDup (recorded_pairs (add_if_new req m)).
Proof.
  intros Hpend Hnd. unfold recorded_pairs. rewrite add_if_new_rows.
  destruct (_url_exists_for_monitor m _ _) eqn:Hm; [done|].
  rewrite Hpend. simpl. rewrite map_app. simpl.
  apply NoDup_app. split; [done|]. split.
  - intros p Hp Hp'. apply list_elem_of_singleton in Hp'. subst p.
    apply list_elem_of_In in Hp. apply url_exists_iff in Hp. congruence.
  - apply NoDup_singleton.
Qed.

(** X15. [add_if_new] is an insert-if-absent on the committed rows:
    afterwards the pair of the record is on record, a second call changes
    nothing, and a table without a pair recorded twice (and nothing
    pending) stays so. *)
Theorem add_if_new_records_once :
  forall (req : SubsequentRequest) (m : t),
    let m' := add_if_new req m in
    _url_exists_for_monitor m' (parent_id req) (target_url req) = true
    /\ add_if_new req m' = m'
    /\ (pending m = [] -> NoDup (recorded_pairs m) ->
        NoDup (recorded_pairs m')).
Proof.
  intros req m m'.
  assert (Hex : _url_exists_for_monitor m' (parent_id req) (target_url req)
                = true).
  { subst m'. unfold add_if_new.
    destruct (_url_exists_for_monitor m _ _) eqn:Hm; [done|].
    apply url_exists_iff. unfold recorded_pairs. simpl.
    rewrite !map_app. simpl. apply in_or_app. right.
    apply in_or_app. right. by left. }
  split; [exact Hex|]. split.
  - unfold add_if_new at 1. by rewrite Hex.
  - intros Hpend Hnd. subst m'. unfold recorded_pairs.
    rewrite add_if_new_rows.
    destruct (_url_exists_for_monitor m _ _) eqn:Hm; [done|].
    rewrite Hpend. simpl. rewrite map_app. simpl.
    apply NoDup_app. split; [done|]. split.
    + intros p Hp Hp'. apply list_elem_of_singleton in Hp'. subst p.
      apply list_elem_of_In in Hp. apply url_exists_iff in Hp. congruence.
    + apply NoDup_singleton.
Qed.

Lemma found_urls type urls : map res_url (map (found type) urls) = urls.
Proof. induction urls as [|u urls IH]; simpl; [done | by rewrite IH]. Qed.

Local Ltac one_record :=
  left; eexists; split; [|reflexivity]; reflexivity.

(** [fallback_capture_method] either raises from a handler, having done
    nothing, or ends a pass. *)
Lemma fallback_cases env m url_id url :
  let r := fallback_capture_method env m url_id url in
  (r.2 = true /\ r.1 = m /\ handler_print_raises env = true)
  \/ (r.2 = false /\ pass_result env m url_id url r.1).
Proof.
  unfold fallback_capture_method, pass_result.
  destruct (bs4_installed env); simpl.
  2:{ destruct (handler_print_raises env); simpl; [by left|].
      right. split; [done|]. one_record. }
  destruct (PyStr.truthy (netloc env (with_scheme url))); simpl.
  2:{ right. split; [done|]. one_record. }
  destruct (fetched env (with_scheme url))
    as [header scripts stylesheets images| |] eqn:Hfetch.
  - destruct (PyStr.contains "text/html" (PyStr.lower header)); simpl.
    + right. split; [done|]. right. eexists _, _.
      split; [|split; [reflexivity|]].
      * destruct (map (found "JavaScript") scripts
                  ++ map (found "Stylesheet") stylesheets
                  ++ map (found "Image") images); done.
      * intros [Hpage _]. specialize (Hpage _ _ _ _ Hfetch).
        destruct (map (found "JavaScript") scripts
                  ++ map (found "Stylesheet") stylesheets
                  ++ map (found "Image") images) as [|x l] eqn:Hl.
        { simpl. apply NoDup_singleton. }
        rewrite <- Hl, !map_app, !found_urls. exact Hpage.
    + right. split; [done|]. one_record.
  - right. split; [done|]. one_record.
  - destruct (handler_print_raises env); simpl; [by left|].
    right. split; [done|]. one_record.
Qed.

Lemma capture_cases env m url_id url :
  let m' := capture_subsequent_requests env m url_id url in
  pass_result env m url_id url m'
  \/ (handler_print_raises env = true
      /\ m' = db_commit
                (db_add (placeholder url_id url "Could not determine") m)).
Proof.
  assert (Houter :
    let m1 :=
      (let '(m1, raised) := fallback_capture_method env m url_id url in
       if raised
       then db_commit
              (db_add (placeholder url_id url "Could not determine") m1)
       else m1) in
    pass_result env m url_id url m1
    \/ (handler_print_raises env = true
        /\ m1 = db_commit
                  (db_add (placeholder url_id url "Could not determine") m))).
  { destruct (fallback_cases env m url_id url)
      as [(Hr & Hm & Hp)|(Hr & Hres)];
      destruct (fallback_capture_method env m url_id url) as [m1 raised];
      simpl in *; subst; auto. }
  assert (Hinner :
    let m1 :=
      (let '(m1, raised) := fallback_capture_method env m url_id url in
       if raised
       then (let '(m2, raised2) :=
               fallback_capture_method env m1 url_id url in
             if raised2
             then db_commit
                    (db_add (placeholder url_id url "Could not determine") m2)
             else m2)
       else m1) in
    pass_result env m url_id url m1
    \/ (handler_print_raises env = true
        /\ m1 = db_commit
                  (db_add (placeholder url_id url "Could not determine") m))).
  { destruct (fallback_cases env m url_id url)
      as [(Hr & Hm & Hp)|(Hr & Hres)].
    - destruct (fallback_capture_method env m url_id url) as [m1 raised]
        eqn:Hfb. simpl in Hr, Hm. rewrite Hr, Hm. simpl. rewrite Hfb, Hr.
      right. split; [done | by rewrite Hm].
    - destruct (fallback_capture_method env m url_id url) as [m1 raised].
      simpl in *. subst. auto. }
  unfold capture_subsequent_requests.
  destruct (PyStr.truthy url); simpl; [|exact Houter].
  destruct (negb (PyStr.truthy (scheme env url))
            || negb (PyStr.truthy (netloc env url))); [exact Hinner|].
  destruct (gethostbyname env (netloc env url)) as [ip|]; [|exact Hinner].
  destruct (captured env) as [| | |reqs| |] eqn:Hcap;
    try exact Hinner; try exact Houter.
  destruct reqs as [|q reqs]; [exact Hinner|].
  left. right. exists res_ip, (q :: reqs).
  split; [done|]. split; [done|]. intros [_ Hcapd]. by apply Hcapd.
Qed.

Lemma save_and_commit_record ip_of url_id resources m :
  resources <> [] ->
  exists r, In r (subsequent_requests
                    (save_and_commit ip_of url_id resources m))
            /\ parent_id r = url_id.
Proof.
  intros Hne. rewrite save_and_commit_rows.
  destruct (map (row_of ip_of url_id) _) as [|x new] eqn:Hnew.
  - destruct resources as [|q rest]; [done|]. simpl in Hnew.
    destruct (_url_exists_for_monitor m url_id (res_url q)) eqn:Hex;
      [|done].
    apply url_exists_iff in Hex. unfold recorded_pairs in Hex.
    apply in_map_iff in Hex as (r & Hr & Hin). injection Hr as Hid _.
    by exists r.
  - exists x. split.
    + apply in_or_app. right. apply in_or_app. right. by left.
    + assert (Hin : In x (map (row_of ip_of url_id)
                (List.filter (fun r => negb
                   (_url_exists_for_monitor m url_id (res_url r)))
                   resources))) by (rewrite Hnew; by left).
      apply in_map_iff in Hin as (q & <- & _). done.
Qed.

Lemma add_if_new_record req m :
  exists r, In r (subsequent_requests (add_if_new req m))
            /\ parent_id r = parent_id req.
Proof.
  rewrite add_if_new_rows.
  destruct (_url_exists_for_monitor m _ _) eqn:Hex.
  - apply url_exists_iff in Hex. unfold recorded_pairs in Hex.
    apply in_map_iff in Hex as (r & Hr & Hin). injection Hr as Hid _.
    by exists r.
  - exists req. split; [|done].
    apply in_or_app. right. apply in_or_app. right. by left.
Qed.

(** X16. A discovery pass never leaves a target without a record: after
    [capture_subsequent_requests], whatever the network, tcpdump and the
    parser did, the table holds at least one committed row for the
    target. *)
Theorem discovery_leaves_a_record :
  forall (env : DiscoveryEnv) (m : t) (url_id : Z) (url : string),
    exists r,
      In r (subsequent_requests
              (capture_subsequent_requests env m url_id url))
      /\ parent_id r = url_id.
Proof.
  intros env m url_id url.
  destruct (capture_cases env m url_id url)
    as [[(req & Hid & ->)|(ip_of & res & Hne & -> & _)]|(_ & ->)].
  - destruct (add_if_new_record req m) as (r & Hin & Hr).
    exists r. split; [done | congruence].
  - by apply save_and_commit_record.
  - exists (placeholder url_id url "Could not determine").
    split; [|reflexivity]. simpl.
    apply in_or_app. right. apply in_or_app. right. by left.
Qed.

(** X17. Discovery is append-only and local: the committed rows of
    before are a prefix of the rows of after, and every row that was
    appended either was pending in the session or belongs to the target of
    the pass; the outcome history and the scheduler are not touched. *)
Theorem discovery_is_append_only :
  forall (env : DiscoveryEnv) (m : t) (url_id : Z) (url : string),
    let m' := capture_subsequent_requests env m url_id url in
    (exists extra,
       subsequent_requests m' = subsequent_requests m ++ extra
       /\ forall r, In r extra -> In r (pending m) \/ parent_id r = url_id)
    /\ url_statuses m' = url_statuses m
    /\ scheduler m' = scheduler m
    /\ jobs m' = jobs m.
Proof.
  intros env m url_id url m'. subst m'.
  destruct (capture_cases env m url_id url)
    as [[(req & Hid & ->)|(ip_of & res & Hne & -> & _)]|(_ & ->)].
  - split.
    + rewrite add_if_new_rows.
      destruct (_url_exists_for_monitor m _ _).
      * exists []. split; [by rewrite app_nil_r | done].
      * eexists. split; [reflexivity|]. intros r Hin.
        apply in_app_or in Hin as [Hin|[<-|[]]]; auto.
    + unfold add_if_new. by destruct (_url_exists_for_monitor m _ _).
  - split.
    + rewrite save_and_commit_rows.
      destruct (map (row_of ip_of url_id) _) as [|x new] eqn:Hnew.
      * exists []. split; [by rewrite app_nil_r | done].
      * eexists. split; [reflexivity|]. intros r Hin.
        apply in_app_or in Hin as [Hin|Hin]; [by left|]. right.
        rewrite <- Hnew in Hin. apply in_map_iff in Hin as (q & <- & _).
        done.
    + unfold save_and_commit. rewrite save_resources_spec. simpl.
      by destruct (0 <? _)%nat.
  - split; [|done]. eexists. split; [reflexivity|]. intros r Hin.
    apply in_app_or in Hin as [Hin|[<-|[]]]; auto.
Qed.

Lemma save_and_commit_nodup ip_of url_id resources m :
  pending m = [] -> NoDup (recorded_pairs m) ->
  NoDup (map res_url resources) ->
  NoDup (recorded_pairs (save_and_commit ip_of url_id resources m)).
Proof.
  intros Hpend Hnd Hres. unfold recorded_pairs.
  rewrite save_and_commit_rows.
  destruct (map (row_of ip_of url_id) _) as [|x new] eqn:Hnew; [done|].
  rewrite <- Hnew, Hpend. simpl. rewrite map_app, map_map. simpl.
  apply NoDup_app. split; [done|]. split.
  - intros p Hp Hp'. apply list_elem_of_In in Hp, Hp'.
    apply in_map_iff in Hp' as (q & <- & Hq).
    apply filter_In in Hq as [_ Hq]. apply negb_true_iff in Hq.
    apply url_exists_iff in Hp. congruence.
  - clear Hnew. induction resources as [|q rest IH]; simpl; [constructor|].
    apply NoDup_cons in Hres as [Hq Hrest]. specialize (IH Hrest).
    destruct (negb (_url_exists_for_monitor m url_id (res_url q)));
      [|done].
    simpl. apply NoDup_cons. split; [|done].
    intros Hin. apply Hq. apply list_elem_of_In in Hin.
    apply in_map_iff in Hin as (q' & Hq' & Hin'). injection Hq' as Hq'.
    apply filter_In in Hin' as [Hin' _]. apply list_elem_of_In.
    apply in_map_iff. by exists q'.
Qed.

(** X18. Uniqueness is kept by a pass that finds each address once: if no
    pair (target id, resolved URL) is recorded twice, nothing is pending,
    the page's references (and the captured requests' addresses) are
    pairwise different and the handlers can print, then no pair is
    recorded twice after the pass. *)
Theorem discovery_keeps_pairs_unique :
  forall (env : DiscoveryEnv) (m : t) (url_id : Z) (url : string),
    pending m = [] ->
    NoDup (recorded_pairs m) ->
    finds_each_url_once env url ->
    handler_print_raises env = false ->
    NoDup (recorded_pairs (capture_subsequent_requests env m url_id url)).
Proof.
  intros env m url_id url Hpend Hnd Honce Hprint.
  destruct (capture_cases env m url_id url)
    as [[(req & Hid & ->)|(ip_of & res & Hne & -> & Hres)]|(Hp & _)].
  - by apply add_if_new_records_once_aux.
  - apply save_and_commit_nodup; auto.
  - congruence.
Qed.

End DiscoveryMore.


Section DiscoveryMoreWitnesses.

Import NetworkMonitor Scenario.
Local Open Scope Z_scope.

Lemma three_resources_found_once :
  finds_each_url_once page_with_three_resources "https://example.com".
Proof.
  split.
  - intros header scripts stylesheets images Hfetch. cbn in Hfetch.
    injection Hfetch as <- <- <- <-. simpl.
    apply (bool_decide_unpack _). by vm_compute.
  - intros reqs Hcap. discriminate Hcap.
Qed.

Lemma discovery_keeps_pairs_unique_witness :
  pending fresh_monitor = []
  /\ NoDup (recorded_pairs fresh_monitor)
  /\ finds_each_url_once page_with_three_resources "https://example.com"
  /\ handler_print_raises page_with_three_resources = false
  /\ NoDup (recorded_pairs
              (capture_subsequent_requests page_with_three_resources
                 fresh_monitor 1 "https://example.com")).
Proof.
  assert (Hnd : NoDup (recorded_pairs fresh_monitor)) by apply NoDup_nil_2.
  split; [reflexivity|]. split; [exact Hnd|].
  split; [exact three_resources_found_once|]. split; [reflexivity|].
  exact (discovery_keeps_pairs_unique page_with_three_resources fresh_monitor
           1 "https://example.com" eq_refl Hnd three_resources_found_once
           eq_refl).
Defined.

Example three_resources_recorded :
  map target_url
    (subsequent_requests
       (capture_subsequent_requests page_with_three_resources fresh_monitor 1
          "https://example.com"))
  = ["https://example.com/app.js"; "https://example.com/site.css"; logo].
Proof. reflexivity. Qed.

End DiscoveryMoreWitnesses.

(** ** Addresses and resource types *)

Section AddressFacts.

Import NetworkMonitor.

Lemma lower_ascii_idempotent c :
  PyStr.lower_ascii (PyStr.lower_ascii c) = PyStr.lower_ascii c.
Proof. destruct c as [[] [] [] [] [] [] [] []]; reflexivity. Qed.

Lemma lower_idempotent s : PyStr.lower (PyStr.lower s) = PyStr.lower s.
Proof.
  induction s as [|c s IH]; simpl; [done|].
  by rewrite lower_ascii_idempotent, IH.
Qed.

(** X19. Adding the scheme is idempotent, and a non-empty address comes
    out with http:// or https:// in front: an address that has one is left
    alone, any other gets http:// prepended, the empty address stays
    empty. *)
Theorem with_scheme_normalises :
  forall (url : string),
    with_scheme (with_scheme url) = with_scheme url
    /\ (PyStr.truthy url = true ->
        PyStr.startswith (with_scheme url) "http://"
        || PyStr.startswith (with_scheme url) "https://" = true)
    /\ (PyStr.startswith url "http://" || PyStr.startswith url "https://"
        = true -> with_scheme url = url)
    /\ with_scheme EmptyString = EmptyString.
Proof.
  intros url.
  assert (Hhttp : forall u, PyStr.startswith ("http://" +:+ u) "http://"
                            = true) by (intros u; by destruct u).
  assert (Htruthy : forall u, PyStr.truthy ("http://" +:+ u) = true)
    by reflexivity.
  unfold with_scheme.
  destruct (PyStr.truthy url) eqn:Ht;
    destruct (PyStr.startswith url "http://"
              || PyStr.startswith url "https://") eqn:Hs;
    cbn [andb negb].
  - rewrite Ht, Hs. done.
  - rewrite Htruthy, Hhttp. done.
  - rewrite Ht. split; [done|]. split; [done|]. done.
  - rewrite Ht. split; [done|]. split; [done|]. done.
Qed.

(** X20. The guesser does not look at the case of the URL: the URL and
    its lower-cased form get the same type, whatever the content type. *)
Theorem guess_resource_type_ignores_url_case :
  forall (url content_type : string),
    _guess_resource_type (PyStr.lower url) content_type
    = _guess_resource_type url content_type.
Proof.
  intros url content_type. unfold _guess_resource_type.
  by rewrite lower_idempotent.
Qed.

End AddressFacts.

(** ** What the request handlers keep true *)

Section AppInvariant.

Import NetworkMonitor.
Local Open Scope Z_scope.

Lemma consistent_ext m m' :
  scheduler m' = scheduler m -> jobs m' = jobs m ->
  next_job m' = next_job m -> consistent m -> consistent m'.
Proof. unfold consistent. by intros -> -> ->. Qed.

Lemma jobs_ok_ext rows m m' :
  scheduler m' = scheduler m -> jobs m' = jobs m ->
  App.jobs_ok rows m -> App.jobs_ok rows m'.
Proof. unfold App.jobs_ok. by intros -> ->. Qed.

Lemma jobs_ok_rows rows rows' m :
  App.jobs_ok rows m ->
  (forall k, is_Some (jobs m !! k) -> rows' !! k = rows !! k) ->
  App.jobs_ok rows' m.
Proof.
  intros Hok Hsame i j Hj. destruct (Hok i j Hj) as (u & Hu & Hrest).
  exists u. split; [|done]. rewrite Hsame; eauto.
Qed.

Lemma jobs_ok_stop rows rows' m i :
  consistent m -> App.jobs_ok rows m ->
  (forall k, k <> i -> rows' !! k = rows !! k) ->
  App.jobs_ok rows' (stop_monitoring m i).1.
Proof.
  intros Hc Hok Hsame. pose proof (stop_monitoring_fields m i) as Hf.
  simpl in Hf. destruct (jobs m !! i) as [old|] eqn:Hold.
  - destruct Hf as (Hs & Hj & _). intros k j. rewrite Hj, Hs. intros Hk.
    destruct (decide (i = k)) as [<-|Hne].
    { by rewrite lookup_delete_eq in Hk. }
    rewrite lookup_delete_ne in Hk by done.
    destruct (Hok k j Hk) as (u & Hu & Ha & Ho & Hjob).
    exists u. rewrite Hsame by done. repeat split; try done.
    rewrite lookup_delete_ne; [done|]. intros ->.
    destruct Hc as (Hdict & _). destruct (Hdict _ _ Hold) as (jb & Hjb & Harg).
    rewrite Hjob in Hjb. injection Hjb as <-. simpl in Harg. done.
  - rewrite Hf. simpl. apply (jobs_ok_rows rows); [done|].
    intros k [j Hk]. apply Hsame. intros ->. congruence.
Qed.

Lemma jobs_ok_start env rows rows' m u :
  consistent m -> App.jobs_ok rows m ->
  (forall k, k <> id u -> rows' !! k = rows !! k) ->
  rows' !! id u = Some u -> is_active u = true -> is_one_time u = false ->
  App.jobs_ok rows' (start_monitoring env m u).
Proof.
  intros Hc Hok Hsame Hrow Hact Hone.
  destruct (start_monitoring_fields env m u) as (Hs & _ & Hj & _).
  pose proof Hc as (Hdict & _ & Hfresh).
  intros k j. rewrite Hj, Hs. intros Hk.
  destruct (decide (id u = k)) as [<-|Hne].
  - rewrite lookup_insert_eq in Hk. injection Hk as <-.
    exists u. by rewrite lookup_insert_eq.
  - rewrite lookup_insert_ne in Hk by done.
    destruct (Hok k j Hk) as (uk & Huk & Ha & Ho & Hjob).
    exists uk. rewrite Hsame by done. repeat split; try done.
    assert (j < next_job m)%nat by (apply Hfresh; eauto).
    rewrite lookup_insert_ne by lia.
    destruct (jobs m !! id u) as [old|] eqn:Hold; [|done].
    rewrite lookup_delete_ne; [done|]. intros ->.
    destruct (Hdict _ _ Hold) as (jb & Hjb & Harg).
    rewrite Hjob in Hjb. injection Hjb as <-. simpl in Harg. done.
Qed.

Lemma monitored_with_url_none app a :
  App.monitored_with_url app a = None ->
  forall i u, App.urls app !! i = Some u -> is_one_time u = false ->
    url u <> a.
Proof.
  unfold App.monitored_with_url. intros Hnone i u Hu Hone Heq.
  destruct (find _ (map_to_list (App.urls app))) as [kv|] eqn:Hfind;
    [done|].
  pose proof (find_none _ _ Hfind (i, u)) as Hf. simpl in Hf.
  rewrite Hone in Hf. simpl in Hf. rewrite andb_true_r in Hf.
  assert (String.eqb (url u) a = true) by (by apply String.eqb_eq).
  rewrite Hf in H; [done|].
  apply list_elem_of_In, elem_of_map_to_list. done.
Qed.

Lemma add_url_well_formed env_first env_job app data :
  App.well_formed app ->
  App.well_formed (App.add_url env_first env_job app data).1.
Proof.
  intros Hwf. pose proof Hwf as (Hc & Hids & Hjobs & Huniq).
  unfold App.add_url.
  destruct (negb (PyStr.truthy (App.req_url data))); [done|].
  destruct (if App.req_one_time data then None
            else App.monitored_with_url app (App.req_url data))
    as [existing|] eqn:Hdup; [done|].
  set (u := mkURL (App.next_id app) (App.req_url data)
              (default (App.req_url data) (App.req_name data))
              (negb (App.req_one_time data))
              (default 60 (App.req_check_frequency data))
              (App.req_one_time data) false 0 None true).
  destruct (check_url_frame env_first (App.monitor app) (id u) (url u))
    as (Hs1 & Hn1 & Hj1 & _).
  destruct (check_url env_first (App.monitor app) (id u) (url u))
    as [m1 status]. simpl in Hs1, Hn1, Hj1.
  assert (Hc1 : consistent m1) by (by apply (consistent_ext (App.monitor app))).
  assert (Hfree : App.urls app !! App.next_id app = None).
  { destruct (App.urls app !! App.next_id app) as [u0|] eqn:Hu0; [|done].
    destruct (Hids _ _ Hu0). lia. }
  assert (Hids' : forall i u0,
            <[App.next_id app := u]> (App.urls app) !! i = Some u0 ->
            id u0 = i /\ i < App.next_id app + 1).
  { intros i u0 Hl. destruct (decide (App.next_id app = i)) as [<-|Hne].
    - rewrite lookup_insert_eq in Hl. injection Hl as <-. simpl. lia.
    - rewrite lookup_insert_ne in Hl by done.
      destruct (Hids _ _ Hl). lia. }
  assert (Hjobs1 : App.jobs_ok (<[App.next_id app := u]> (App.urls app)) m1).
  { apply (jobs_ok_ext _ (App.monitor app)); [done..|].
    apply (jobs_ok_rows (App.urls app)); [done|].
    intros k [j Hk]. destruct (Hjobs k j Hk) as (uk & Huk & _).
    rewrite lookup_insert_ne; [done|]. intros <-. congruence. }
  assert (Huniq' : forall i i' v v',
            <[App.next_id app := u]> (App.urls app) !! i = Some v ->
            <[App.next_id app := u]> (App.urls app) !! i' = Some v' ->
            is_one_time v = false -> is_one_time v' = false ->
            url v = url v' -> i = i').
  { intros i i' v v' Hv Hv' Ho Ho' Heq.
    destruct (decide (App.next_id app = i)) as [<-|Hne];
      destruct (decide (App.next_id app = i')) as [<-|Hne']; [done|..].
    - rewrite lookup_insert_eq in Hv. injection Hv as <-.
      rewrite lookup_insert_ne in Hv' by done. simpl in Ho, Heq.
      rewrite Ho in Hdup.
      by destruct (monitored_with_url_none app _ Hdup i' v' Hv' Ho').
    - rewrite lookup_insert_eq in Hv'. injection Hv' as <-.
      rewrite lookup_insert_ne in Hv by done. simpl in Ho', Heq.
      rewrite Ho' in Hdup.
      by destruct (monitored_with_url_none app _ Hdup i v Hv Ho).
    - rewrite lookup_insert_ne in Hv, Hv' by done. eauto. }
  destruct (App.req_one_time data) eqn:Hone; simpl.
  - split; [done|]. split; [done|]. split; [done|]. done.
  - split; [by apply start_monitoring_consistent|]. split; [done|].
    split; [|done].
    apply (jobs_ok_start _ (<[App.next_id app := u]> (App.urls app)));
      first [ done
            | simpl; apply lookup_insert_eq
            | subst u; simpl; by rewrite Hone ].
Qed.

(** [update_url] rewrites the name, the frequency and the active flag of
    the row, nothing else, and then tells the monitor. *)
Lemma update_url_row env app i data u0 :
  App.urls app !! i = Some u0 ->
  exists u,
    id u = id u0 /\ url u = url u0 /\ is_one_time u = is_one_time u0
    /\ (App.update_url env app i data).1
       = App.mk (<[i := u]> (App.urls app)) (App.next_id app)
           (if is_active u
            then (update_frequency env (App.monitor app) u).1
            else (stop_monitoring (App.monitor app) (id u)).1).
Proof.
  intros Hu0. unfold App.update_url. rewrite Hu0.
  destruct (App.new_name data), (App.new_check_frequency data),
    (App.new_is_active data); simpl;
    eexists; refine (conj _ (conj _ (conj _ eq_refl))); done.
Qed.

Lemma update_url_well_formed env app i data :
  App.well_formed app ->
  App.well_formed (App.update_url env app i data).1.
Proof.
  intros Hwf. pose proof Hwf as (Hc & Hids & Hjobs & Huniq).
  destruct (App.urls app !! i) as [u0|] eqn:Hu0.
  2:{ unfold App.update_url. by rewrite Hu0. }
  destruct (update_url_row env app i data u0 Hu0)
    as (u & Hid & Hurl & Hone & ->).
  destruct (Hids _ _ Hu0) as [Hid0 Hlt].
  assert (Hidu : id u = i) by congruence.
  assert (Hoff : forall k, k <> i ->
            <[i := u]> (App.urls app) !! k = App.urls app !! k).
  { intros k Hne. by rewrite lookup_insert_ne. }
  assert (Hback : forall k v, <[i := u]> (App.urls app) !! k = Some v ->
            exists v0, App.urls app !! k = Some v0 /\ id v = id v0
              /\ url v = url v0 /\ is_one_time v = is_one_time v0).
  { intros k v Hv. destruct (decide (i = k)) as [<-|Hne].
    - rewrite lookup_insert_eq in Hv. injection Hv as <-. by exists u0.
    - rewrite lookup_insert_ne in Hv by done. by exists v. }
  split; [|split; [|split]]; simpl.
  - destruct (is_active u).
    + unfold update_frequency. destruct (jobs (App.monitor app) !! id u);
        [|done].
      simpl. by apply start_monitoring_consistent, stop_monitoring_consistent.
    + by apply stop_monitoring_consistent.
  - intros k v Hv. destruct (Hback k v Hv) as (v0 & Hv0 & Hidv & _).
    destruct (Hids _ _ Hv0). split; [congruence | done].
  - destruct (is_active u) eqn:Hact.
    + unfold update_frequency.
      destruct (jobs (App.monitor app) !! id u) as [old|] eqn:Hold; simpl.
      * rewrite Hidu in Hold. destruct (Hjobs _ _ Hold) as (v & Hv & _ & Ho & _).
        assert (v = u0) as -> by congruence.
        apply (jobs_ok_start _ (<[i := u]> (App.urls app))).
        -- by apply stop_monitoring_consistent.
        -- rewrite Hidu. by apply (jobs_ok_stop (App.urls app)).
        -- done.
        -- rewrite Hidu. apply lookup_insert_eq.
        -- done.
        -- congruence.
      * apply (jobs_ok_rows (App.urls app)); [done|].
        intros k [j Hk]. apply Hoff. intros ->. congruence.
    + rewrite Hidu. by apply (jobs_ok_stop (App.urls app)).
  - intros k k' v v' Hv Hv' Ho Ho' Heq.
    destruct (Hback k v Hv) as (v0 & Hv0 & _ & Hurl0 & Hone0).
    destruct (Hback k' v' Hv') as (v0' & Hv0' & _ & Hurl0' & Hone0').
    apply (Huniq k k' v0 v0'); congruence.
Qed.

Lemma delete_url_well_formed app i :
  App.well_formed app -> App.well_formed (App.delete_url app i).1.
Proof.
  intros Hwf. pose proof Hwf as (Hc & Hids & Hjobs & Huniq).
  unfold App.delete_url.
  destruct (App.urls app !! i) as [u|] eqn:Hu; [|done]. simpl.
  destruct (Hids _ _ Hu) as [Hid _]. rewrite Hid.
  pose proof (stop_monitoring_consistent (App.monitor app) i Hc) as Hc'.
  split; [|split; [|split]]; simpl.
  - by apply (consistent_ext (stop_monitoring (App.monitor app) i).1).
  - intros k v Hv. apply lookup_delete_Some in Hv as [_ Hv]. eauto.
  - apply (jobs_ok_ext _ (stop_monitoring (App.monitor app) i).1);
      [done..|].
    apply (jobs_ok_stop (App.urls app)); [done..|].
    intros k Hne. by rewrite lookup_delete_ne.
  - intros k k' v v' Hv Hv'.
    apply lookup_delete_Some in Hv as [_ Hv].
    apply lookup_delete_Some in Hv' as [_ Hv']. eauto.
Qed.

Lemma handle_well_formed app r :
  App.well_formed app -> App.well_formed (App.handle app r).
Proof.
  destruct r as [e1 e2 data|env i data|i]; simpl.
  - apply add_url_well_formed.
  - apply update_url_well_formed.
  - apply delete_url_well_formed.
Qed.

Lemma serve_well_formed requests : forall app,
  App.well_formed app -> App.well_formed (App.serve app requests).
Proof.
  unfold App.serve.
  induction requests as [|r rest IH]; intros app Hwf; simpl; [done|].
  by apply IH, handle_well_formed.
Qed.

Lemma fresh_app_well_formed : App.well_formed Scenario.fresh_app.
Proof.
  split; [|split; [|split]].
  - split; [|split].
    + intros i j Hl. cbn in Hl. by rewrite lookup_empty in Hl.
    + intros j jb Hl. cbn in Hl. by rewrite lookup_empty in Hl.
    + intros j [jb Hl]. cbn in Hl. by rewrite lookup_empty in Hl.
  - intros i u Hl. cbn in Hl. by rewrite lookup_empty in Hl.
  - intros i j Hl. cbn in Hl. by rewrite lookup_empty in Hl.
  - intros i i' u u' Hl. cbn in Hl. by rewrite lookup_empty in Hl.
Qed.

(** X21. Whatever requests an installation that started empty has served
    (add, update, delete, in any order, with any answers of the network),
    a target that holds a job is a row that is active and not one-time,
    and its job runs at the row's current [check_frequency] on the row's
    address; the job store holds no job besides those of the dict. So a
    target that is one-time or inactive holds no job. *)
Theorem served_jobs_belong_to_active_recurring_rows :
  forall (requests : list App.request) (i : Z),
    let app := App.serve Scenario.fresh_app requests in
    (forall j, jobs (App.monitor app) !! i = Some j ->
       exists u, App.urls app !! i = Some u
         /\ is_active u = true /\ is_one_time u = false
         /\ scheduler (App.monitor app) !! j
            = Some (mkJob (check_frequency u) (i, url u)))
    /\ (forall u, App.urls app !! i = Some u ->
          is_one_time u = true \/ is_active u = false ->
          App.scheduled app i = false)
    /\ (forall j jb, scheduler (App.monitor app) !! j = Some jb ->
          jobs (App.monitor app) !! (args jb).1 = Some j).
Proof.
  intros requests i app.
  destruct (serve_well_formed requests _ fresh_app_well_formed)
    as ((_ & Hstore & _) & _ & Hjobs & _).
  fold app in Hstore, Hjobs.
  split; [apply Hjobs|]. split; [|apply Hstore].
  intros u Hu Hoff. unfold App.scheduled. apply bool_decide_eq_false.
  intros [j Hj]. destruct (Hjobs i j Hj) as (v & Hv & Ha & Ho & _).
  assert (v = u) as -> by congruence. destruct Hoff; congruence.
Qed.

(** X22. Whatever requests an installation that started empty has served,
    no two recurring targets have the same address, every row is stored
    under its own id, and the ids in use are below the next one. *)
Theorem served_recurring_rows_have_distinct_urls :
  forall (requests : list App.request),
    let app := App.serve Scenario.fresh_app requests in
    (forall i i' u u',
       App.urls app !! i = Some u -> App.urls app !! i' = Some u' ->
       is_one_time u = false -> is_one_time u' = false ->
       url u = url u' -> i = i')
    /\ (forall i u, App.urls app !! i = Some u ->
          id u = i /\ i < App.next_id app).
Proof.
  intros requests app.
  destruct (serve_well_formed requests _ fresh_app_well_formed)
    as (_ & Hids & _ & Huniq).
  by split.
Qed.

End AppInvariant.

(** ** The handlers one by one *)

Section HandlerFacts.

Import NetworkMonitor.
Local Open Scope Z_scope.

Lemma foldl_start_monitoring_jobs env l : forall m i,
  is_Some (jobs (foldl (start_monitoring env) m l) !! i)
  <-> is_Some (jobs m !! i) \/ exists u, u ∈ l /\ id u = i.
Proof.
  induction l as [|u l IH]; intros m i; simpl.
  { split; [by left|]. intros [?|(u & Hu & _)]; [done|].
    by apply elem_of_nil in Hu. }
  rewrite IH. destruct (start_monitoring_fields env m u) as (_ & _ & -> & _).
  split.
  - intros [Hs|(v & Hv & Hid)].
    + destruct (decide (id u = i)) as [<-|Hne].
      * right. exists u. split; [apply list_elem_of_here | done].
      * rewrite lookup_insert_ne in Hs by done. by left.
    + right. exists v. split; [by apply list_elem_of_further | done].
  - intros [Hs|(v & Hv & Hid)].
    + left. destruct (decide (id u = i)) as [<-|Hne].
      * rewrite lookup_insert_eq. eauto.
      * by rewrite lookup_insert_ne.
    + apply elem_of_cons in Hv as [->|Hv].
      * left. rewrite Hid, lookup_insert_eq. eauto.
      * right. by exists v.
Qed.

Lemma foldl_start_monitoring_consistent env l : forall m,
  consistent m -> consistent (foldl (start_monitoring env) m l).
Proof.
  induction l as [|u l IH]; intros m Hc; simpl; [done|].
  by apply IH, start_monitoring_consistent.
Qed.

(** X23. When the process starts, the start-up block schedules exactly
    the rows with [is_active] set, one-time or not: a target holds a job
    after [main] if and only if its row is active. The rows themselves are
    not changed, and dict and job store agree. *)
Theorem main_schedules_the_active_rows :
  forall (env : ProbeEnv) (app : App.t),
    (forall k u, App.urls app !! k = Some u -> id u = k) ->
    App.urls (App.main env app) = App.urls app
    /\ consistent (App.monitor (App.main env app))
    /\ forall i, App.scheduled (App.main env app) i = true
                 <-> exists u, App.urls app !! i = Some u
                       /\ is_active u = true.
Proof.
  intros env app Hids. split; [done|]. split.
  - unfold App.main. simpl. apply foldl_start_monitoring_consistent.
    split; [|split].
    + intros i j Hl. cbn in Hl. by rewrite lookup_empty in Hl.
    + intros j jb Hl. cbn in Hl. by rewrite lookup_empty in Hl.
    + intros j [jb Hl]. cbn in Hl. by rewrite lookup_empty in Hl.
  - intros i. unfold App.scheduled. rewrite bool_decide_eq_true.
    unfold App.main. simpl. rewrite foldl_start_monitoring_jobs. simpl.
    split.
    + intros [[j Hj]|(u & Hu & Hid)].
      { by rewrite lookup_empty in Hj. }
      apply list_elem_of_filter in Hu as [Hact Hu].
      apply list_elem_of_fmap in Hu as ([k v] & -> & Hkv).
      apply elem_of_map_to_list in Hkv. simpl in *.
      exists v. split; [|done]. by rewrite <- Hid, (Hids k v Hkv).
    + intros (u & Hu & Hact). right. exists u. split; [|by apply Hids].
      apply list_elem_of_filter. split; [done|].
      apply list_elem_of_fmap. exists (i, u). split; [done|].
      by apply elem_of_map_to_list.
Qed.

Lemma filter_split {A} (P : A -> Prop) `{forall x, Decision (P x)}
    (l : list A) :
  (length (filter P l) + length (filter (fun x => ~ P x) l))%nat = length l.
Proof.
  induction l as [|x l IH]; [done|].
  rewrite !filter_cons. destruct (decide (P x)); destruct (decide (~ P x));
    simpl; try lia; done.
Qed.

(** X24. Deleting a target cascades: the row is gone, the target holds no
    job, no outcome and no sub-resource record of the target remains,
    while the rows and the records of the other targets are kept; the
    reply counts exactly the records that were removed. An unknown id is
    answered with 404 and changes nothing. *)
Theorem delete_url_cascades :
  forall (app : App.t) (i : Z),
    (forall u, App.urls app !! i = Some u -> id u = i) ->
    let r := App.delete_url app i in
    (App.urls app !! i = None -> r = (app, App.NotFound))
    /\ (is_Some (App.urls app !! i) ->
        App.urls r.1 !! i = None
        /\ App.scheduled r.1 i = false
        /\ (forall k, k <> i -> App.urls r.1 !! k = App.urls app !! k)
        /\ (forall st, st ∈ url_statuses (App.monitor r.1) <->
              st ∈ url_statuses (App.monitor app) /\ url_id st <> i)
        /\ (forall sr, sr ∈ subsequent_requests (App.monitor r.1) <->
              sr ∈ subsequent_requests (App.monitor app)
              /\ parent_id sr <> i)
        /\ exists removed_statuses removed_records,
             r.2 = App.Deleted i removed_statuses removed_records
             /\ (length (url_statuses (App.monitor r.1)) + removed_statuses
                 = length (url_statuses (App.monitor app)))%nat
             /\ (length (subsequent_requests (App.monitor r.1))
                 + removed_records
                 = length (subsequent_requests (App.monitor app)))%nat).
Proof.
  intros app i Hid r. subst r. unfold App.delete_url.
  destruct (App.urls app !! i) as [u|] eqn:Hu.
  2:{ split; [done|]. by intros [? ?]. }
  split; [done|]. intros _. simpl. rewrite (Hid u eq_refl).
  pose proof (stop_monitoring_fields (App.monitor app) i) as Hf.
  simpl in Hf.
  assert (Hstat : url_statuses (stop_monitoring (App.monitor app) i).1
                  = url_statuses (App.monitor app)
                  /\ subsequent_requests
                       (stop_monitoring (App.monitor app) i).1
                     = subsequent_requests (App.monitor app)
                  /\ jobs (stop_monitoring (App.monitor app) i).1 !! i
                     = None).
  { destruct (jobs (App.monitor app) !! i) as [j|] eqn:Hj.
    - destruct Hf as (_ & -> & _ & -> & -> & _).
      by rewrite lookup_delete_eq.
    - by rewrite Hf. }
  destruct Hstat as (Hst & Hsr & Hnone). rewrite Hst, Hsr.
  split; [apply lookup_delete_eq|]. split.
  { unfold App.scheduled. simpl. apply bool_decide_eq_false.
    rewrite Hnone. by intros [? ?]. }
  split; [intros k Hne; by rewrite lookup_delete_ne|].
  split; [intros st; by rewrite list_elem_of_filter, (comm and)|].
  split; [intros sr; by rewrite list_elem_of_filter, (comm and)|].
  eexists _, _. split; [reflexivity|]. split.
  - rewrite Nat.add_comm.
    apply (filter_split (fun st => url_id st = i)).
  - rewrite Nat.add_comm.
    apply (filter_split (fun sr => parent_id sr = i)).
Qed.

Lemma monitored_with_url_some app a existing :
  App.monitored_with_url app a = Some existing ->
  exists i, App.urls app !! i = Some existing
    /\ url existing = a /\ is_one_time existing = false.
Proof.
  unfold App.monitored_with_url. intros Hsome.
  destruct (find _ (map_to_list (App.urls app))) as [[i u]|] eqn:Hfind;
    [|done].
  simpl in Hsome. injection Hsome as ->.
  apply find_some in Hfind as [Hin Hf]. simpl in Hf.
  apply andb_true_iff in Hf as [Heq Hone].
  apply String.eqb_eq in Heq. apply negb_true_iff in Hone.
  exists i. split; [|done].
  by apply elem_of_map_to_list, list_elem_of_In.
Qed.

(** X25. Adding a recurring target. An empty address is answered with
    400 and an address that a recurring row already has with 409 and the
    id of such a row, both without any change or probe. Otherwise the row
    is created under the next id, active, with the name and frequency
    defaulting to the address and 60, and the target holds a job when the
    call returns. *)
Theorem add_url_recurring :
  forall (env_first env_job : ProbeEnv) (app : App.t)
         (data : App.add_request),
    App.req_one_time data = false ->
    let r := App.add_url env_first env_job app data in
    (PyStr.truthy (App.req_url data) = false -> r = (app, App.BadRequest))
    /\ (PyStr.truthy (App.req_url data) = true ->
        (forall i u, App.urls app !! i = Some u ->
           url u = App.req_url data -> is_one_time u = false ->
           r.1 = app
           /\ exists k v, r.2 = App.Conflict (id v)
                /\ App.urls app !! k = Some v
                /\ url v = App.req_url data /\ is_one_time v = false)
        /\ ((forall i u, App.urls app !! i = Some u ->
               is_one_time u = false -> url u <> App.req_url data) ->
            r.2 = App.Created (App.next_id app)
            /\ App.next_id r.1 = App.next_id app + 1
            /\ App.urls r.1
               = <[App.next_id app :=
                     mkURL (App.next_id app) (App.req_url data)
                       (default (App.req_url data) (App.req_name data))
                       true (default 60 (App.req_check_frequency data))
                       false false 0 None true]> (App.urls app)
            /\ App.scheduled r.1 (App.next_id app) = true)).
Proof.
  intros env_first env_job app data Hone r. subst r. unfold App.add_url.
  rewrite Hone.
  destruct (PyStr.truthy (App.req_url data)) eqn:Ht; simpl.
  2:{ split; [done|]. intros; discriminate. }
  split; [intros; discriminate|]. intros _. split.
  - intros i u Hu Hurl Hou.
    destruct (App.monitored_with_url app (App.req_url data)) as [v|] eqn:Hm.
    + split; [done|].
      destruct (monitored_with_url_some app _ v Hm) as (k & Hk & Hv & Hov).
      by exists k, v.
    + by destruct (monitored_with_url_none app _ Hm i u Hu Hou).
  - intros Hnone.
    destruct (App.monitored_with_url app (App.req_url data)) as [v|] eqn:Hm.
    { destruct (monitored_with_url_some app _ v Hm) as (k & Hk & Hv & Hov).
      by destruct (Hnone k v Hk Hov). }
    match goal with
    | |- context [check_url env_first ?m ?i ?a] =>
        destruct (check_url env_first m i a) as [m1 status]
    end.
    simpl. split; [done|]. split; [done|]. split; [done|].
    unfold App.scheduled. simpl. apply bool_decide_eq_true.
    match goal with
    | |- context [start_monitoring env_job m1 ?u] =>
        destruct (start_monitoring_fields env_job m1 u) as (_ & _ & -> & _)
    end.
    simpl. rewrite lookup_insert_eq. eauto.
Qed.

(** X26. A one-time check. Whether or not the address is already
    monitored, the row is created under the next id, inactive and marked
    one-time; the probe is made once, its outcome is appended to the
    history and is the status of the reply; the scheduler and the jobs
    dict are not touched. Nothing is said about the sub-resource records
    of the reply, which are those the discovery thread has committed two
    seconds later. *)
Theorem add_url_one_time :
  forall (env_first env_job : ProbeEnv) (app : App.t)
         (data : App.add_request),
    PyStr.truthy (App.req_url data) = true ->
    App.req_one_time data = true ->
    let r := App.add_url env_first env_job app data in
    let probe :=
      check_url env_first (App.monitor app) (App.next_id app)
        (App.req_url data) in
    jobs (App.monitor r.1) = jobs (App.monitor app)
    /\ scheduler (App.monitor r.1) = scheduler (App.monitor app)
    /\ url_statuses (App.monitor r.1)
       = url_statuses (App.monitor app) ++ [probe.2]
    /\ App.urls r.1
       = <[App.next_id app :=
             mkURL (App.next_id app) (App.req_url data)
               (default (App.req_url data) (App.req_name data))
               false (default 60 (App.req_check_frequency data))
               true false 0 None true]> (App.urls app)
    /\ App.next_id r.1 = App.next_id app + 1
    /\ exists records,
         r.2 = App.OneTimeResult (App.next_id app) (Some probe.2) records.
Proof.
  intros env_first env_job app data Ht Hone r probe. subst r probe.
  unfold App.add_url. rewrite Ht, Hone. simpl.
  destruct (check_url_frame env_first (App.monitor app) (App.next_id app)
              (App.req_url data)) as (Hs & _ & Hj & Hst & Hid).
  destruct (check_url env_first (App.monitor app) (App.next_id app)
              (App.req_url data)) as [m1 status]. simpl in *.
  split; [done|]. split; [done|]. split; [done|]. split; [done|].
  split; [done|].
  eexists. f_equal. rewrite Hst, filter_app, filter_cons, filter_nil.
  rewrite decide_True by done. by rewrite last_snoc.
Qed.

End HandlerFacts.

Section HandlerWitnesses.

Import NetworkMonitor Scenario.
Local Open Scope Z_scope.

Lemma installed_rows_under_their_id :
  forall k u, App.urls installed_app !! k = Some u -> id u = k.
Proof.
  intros k u Hu. cbn in Hu. apply lookup_singleton_Some in Hu as [<- <-].
  reflexivity.
Qed.

Lemma main_schedules_the_active_rows_witness :
  (forall k u, App.urls installed_app !! k = Some u -> id u = k)
  /\ consistent (App.monitor (App.main server_up installed_app)).
Proof.
  split; [exact installed_rows_under_their_id|].
  exact (proj1 (proj2 (main_schedules_the_active_rows server_up installed_app
                         installed_rows_under_their_id))).
Defined.

Lemma delete_url_cascades_witness :
  (forall u, App.urls installed_app !! 1 = Some u -> id u = 1)
  /\ (is_Some (App.urls installed_app !! 1) ->
      App.urls (App.delete_url installed_app 1).1 !! 1 = None).
Proof.
  split; [exact (installed_rows_under_their_id 1)|].
  intros Hrow.
  exact (proj1 (proj2 (delete_url_cascades installed_app 1
                         (installed_rows_under_their_id 1)) Hrow)).
Defined.

Lemma add_url_recurring_witness :
  App.req_one_time add_recurring = false
  /\ (App.add_url server_up server_up fresh_app add_recurring).2
     = App.Created 1.
Proof.
  split; [reflexivity|].
  destruct (add_url_recurring server_up server_up fresh_app add_recurring
              eq_refl) as (_ & Hadd).
  destruct (Hadd eq_refl) as (_ & Hnew). apply Hnew.
  intros i u Hu. cbn in Hu. by rewrite lookup_empty in Hu.
Defined.

Lemma add_url_one_time_witness :
  let r := App.add_url server_up server_up installed_app add_one_time in
  PyStr.truthy (App.req_url add_one_time) = true
  /\ App.req_one_time add_one_time = true
  /\ jobs (App.monitor r.1) = jobs (App.monitor installed_app)
  /\ url_statuses (App.monitor r.1) = [mkURLStatus 2 200 120000 true None]
  /\ (is_active <$> App.urls r.1 !! 2) = Some false.
Proof.
  destruct (add_url_one_time server_up server_up installed_app
              add_one_time eq_refl eq_refl)
    as (Hjobs & _ & Hst & Hrows & _).
  cbv zeta. split; [reflexivity|]. split; [reflexivity|].
  split; [exact Hjobs|]. split; [exact Hst|].
  rewrite Hrows. by rewrite lookup_insert_eq.
Defined.

End HandlerWitnesses.


(** ** Parsing a capture *)

Section ParseFacts.

Import NetworkMonitor.

Lemma type_of_uri_range uri :
  type_of_uri uri ∈ ["Image"; "Stylesheet"; "JavaScript"; "HTML"; "Other"].
Proof.
  unfold type_of_uri.
  repeat match goal with
         | |- context [if ?b then _ else _] => destruct b
         end; set_solver.
Qed.

(** X27. Every request that [parse_capture_file] returns has one of the
    six resource types; a request of type Unknown has the address
    Unknown; a request found by the regular expression is never of type
    Other or Unknown and is always a stateful TCP request with unknown
    IP. *)
Theorem parse_capture_file_resource_types :
  forall (f : capture_file) (r : resource),
    r ∈ parse_capture_file f ->
    res_type r ∈ ["Image"; "Stylesheet"; "JavaScript"; "HTML"; "Other";
                  "Unknown"]
    /\ (res_type r = "Unknown" -> res_url r = "Unknown")
    /\ (tshark_run f = TsharkReturns None
        \/ tshark_run f = TsharkReturns (Some []) ->
        res_type r ∈ ["Image"; "Stylesheet"; "JavaScript"; "HTML"]
        /\ res_ip r = "Unknown" /\ res_state r = "Stateful"
        /\ res_protocol r = "TCP").
Proof.
  intros f r Hr.
  assert (Hpacket : forall p,
            res_type (parse_packet p)
              ∈ ["Image"; "Stylesheet"; "JavaScript"; "HTML"; "Other";
                 "Unknown"]
            /\ (res_type (parse_packet p) = "Unknown" ->
                res_url (parse_packet p) = "Unknown")).
  { intros p. unfold parse_packet.
    destruct (ws_col_protocol p); [simpl; split; [set_solver | done]|].
    destruct (packet_layers p) as [l|]; [|simpl; split; [set_solver | done]].
    destruct (frame l); [|simpl; split; [set_solver | done]].
    destruct (http l) as [[uri|]|]; simpl;
      try (split; [set_solver | done]).
    pose proof (type_of_uri_range uri) as Hrange. split; [set_solver|].
    intros Hunk. rewrite Hunk in Hrange. set_solver. }
  assert (Hmatch : forall found,
            res_type (request_of_match found)
              ∈ ["Image"; "Stylesheet"; "JavaScript"; "HTML"]
            /\ res_ip (request_of_match found) = "Unknown"
            /\ res_state (request_of_match found) = "Stateful"
            /\ res_protocol (request_of_match found) = "TCP").
  { intros found. unfold request_of_match. simpl.
    split; [|done].
    repeat match goal with
           | |- context [if ?b then _ else _] => destruct b
           end; set_solver. }
  unfold parse_capture_file in Hr.
  destruct (file_exists f); simpl in Hr; [|by apply elem_of_nil in Hr].
  destruct (tshark_run f) as [|packets]; [by apply elem_of_nil in Hr|].
  destruct packets as [[|p ps]|]; simpl in Hr.
  - destruct (http_matches f) as [found|]; [|by apply elem_of_nil in Hr].
    apply list_elem_of_fmap in Hr as (x & -> & _).
    destruct (Hmatch x) as (Ht & Hrest).
    split; [set_solver|]. split; [|done].
    intros Hunk. rewrite Hunk in Ht. set_solver.
  - assert (Hin : r ∈ map parse_packet (p :: ps)) by done.
    apply list_elem_of_fmap in Hin as (x & -> & _).
    destruct (Hpacket x) as [Ht Hu]. split; [done|]. split; [done|].
    intros [H|H]; discriminate H.
  - destruct (http_matches f) as [found|]; [|by apply elem_of_nil in Hr].
    apply list_elem_of_fmap in Hr as (x & -> & _).
    destruct (Hmatch x) as (Ht & Hrest).
    split; [set_solver|]. split; [|done].
    intros Hunk. rewrite Hunk in Ht. set_solver.
Qed.

(** X28. Which parser answers. A missing file gives no request, and so
    does a tshark that cannot be run: the regular expression is then not
    tried, whatever it would have found. When tshark returns packets
    there is exactly one request per packet and the regular expression is
    not consulted; only when tshark returns without any packet are the
    matches of the regular expression used, one request per match. *)
Theorem parse_capture_file_sources :
  forall (f : capture_file),
    (file_exists f = false -> parse_capture_file f = [])
    /\ (tshark_run f = TsharkRaises -> parse_capture_file f = [])
    /\ (forall p ps, file_exists f = true ->
          tshark_run f = TsharkReturns (Some (p :: ps)) ->
          parse_capture_file f = map parse_packet (p :: ps)
          /\ length (parse_capture_file f) = length (p :: ps))
    /\ (forall found, file_exists f = true ->
          tshark_run f = TsharkReturns None
          \/ tshark_run f = TsharkReturns (Some []) ->
          http_matches f = Some found ->
          parse_capture_file f = map request_of_match found
          /\ map res_url (parse_capture_file f) = map snd found).
Proof.
  intros f. unfold parse_capture_file. split; [by intros ->|]. split.
  { intros ->. by destruct (file_exists f). }
  split.
  - intros p ps -> ->. simpl. split; [done|]. by rewrite length_map.
  - intros found -> Hts ->. simpl.
    assert (Hurls : map res_url (map request_of_match found)
                    = map snd found).
    { rewrite map_map. by apply map_ext. }
    by destruct Hts as [-> | ->].
Qed.

(** X29. The two classifiers agree where they overlap: for an address
    already in lower case that does not end in .webp, the type the tshark
    branch of the parser gives is the type [_guess_resource_type] gives
    without a content type. *)
Theorem type_of_uri_agrees_with_guess :
  forall (uri : string),
    PyStr.lower uri = uri ->
    PyStr.endswith uri ".webp" = false ->
    type_of_uri uri = _guess_resource_type uri EmptyString.
Proof.
  intros uri Hlow Hwebp.
  unfold type_of_uri, _guess_resource_type, PyStr.endswith_any.
  rewrite Hlow. cbn [PyStr.truthy existsb]. rewrite Hwebp.
  by rewrite !orb_false_r.
Qed.

End ParseFacts.

Section ParseWitnesses.

Import NetworkMonitor.

Lemma parse_capture_file_resource_types_witness :
  mkResource "/logo.png" "Unknown" "Image" "Stateful" "TCP"
    ∈ parse_capture_file
        (mkCaptureFile true (TsharkReturns None)
           (Some [("GET", "/logo.png")]))
  /\ res_type (mkResource "/logo.png" "Unknown" "Image" "Stateful" "TCP")
     ∈ ["Image"; "Stylesheet"; "JavaScript"; "HTML"; "Other"; "Unknown"].
Proof.
  assert (Hin : mkResource "/logo.png" "Unknown" "Image" "Stateful" "TCP"
                  ∈ parse_capture_file
                      (mkCaptureFile true (TsharkReturns None)
                         (Some [("GET", "/logo.png")]))).
  { apply list_elem_of_here. }
  split; [exact Hin|].
  exact (proj1 (parse_capture_file_resource_types _ _ Hin)).
Defined.

Lemma type_of_uri_agrees_with_guess_witness :
  PyStr.lower "http://example.com/site.css" = "http://example.com/site.css"
  /\ PyStr.endswith "http://example.com/site.css" ".webp" = false
  /\ type_of_uri "http://example.com/site.css"
     = _guess_resource_type "http://example.com/site.css" EmptyString.
Proof.
  split; [reflexivity|]. split; [reflexivity|].
  exact (type_of_uri_agrees_with_guess "http://example.com/site.css"
           eq_refl eq_refl).
Defined.

End ParseWitnesses.
